(** * rsvp-reading: [src/lib/progress-storage.js]

    A shallow embedding of the progress-storage module and proofs about it.

    - [Number]: ECMAScript Numbers as IEEE-754 binary64 values, through the
      Standard Library's reference implementation [SpecFloat], and the
      built-ins of [Math] the module calls;
    - the two position/percentage conversions;
    - the host (localStorage, the clock, the console), the JSON built-ins,
      and the five storage operations, written in a state-and-exception
      monad so that each definition reads like its JavaScript source. *)

From Stdlib Require Import ZArith Lia Bool List.
From Stdlib Require Import Floats.SpecFloat.
From stdpp Require Import gmap strings.

Local Open Scope Z_scope.

(* ===================================================================== *)
(** * ECMAScript Numbers *)
(* ===================================================================== *)

Module Number.

(** binary64: 53 bits of precision, infinities at exponent 1024. *)
Definition prec : Z := 53.
Definition emax : Z := 1024.

(** A Number is a binary64 datum.  [spec_float] has one NaN, as
    ECMAScript has.  A finite datum [S754_finite s m e] stands for
    [(-1)^s * m * 2^e]; the Numbers are the data for which [valid] holds
    (canonical mantissa, exponent in range). *)
Definition number : Type := spec_float.

Definition valid (x : number) : bool := valid_binary prec emax x.

Definition NaN : number := S754_nan.
Definition pos_zero : number := S754_zero false.
Definition neg_zero : number := S754_zero true.
Definition pos_infinity : number := S754_infinity false.
Definition neg_infinity : number := S754_infinity true.

(** The Number for a mathematical integer (exact below 2^53, rounded to
    nearest even above). *)
Definition of_Z (z : Z) : number := binary_normalize prec emax z 0 false.

Definition mul (x y : number) : number := SFmul prec emax x y.
Definition div (x y : number) : number := SFdiv prec emax x y.

(** [x < y] and [x <= y] of the language: false as soon as one side is
    NaN; the two zeros compare equal. *)
Definition lt (x y : number) : bool := SFltb x y.
Definition le (x y : number) : bool := SFleb x y.

Definition is_nan (x : number) : bool :=
  match x with S754_nan => true | _ => false end.

Definition is_finite (x : number) : bool :=
  match x with S754_zero _ | S754_finite _ _ _ => true | _ => false end.

(** ToBoolean on a Number: false for +0, -0 and NaN. *)
Definition truthy (x : number) : bool :=
  match x with S754_zero _ | S754_nan => false | _ => true end.

(** [Number.isInteger]. *)
Definition isInteger (x : number) : bool :=
  match x with
  | S754_zero _ => true
  | S754_finite _ m e =>
      if 0 <=? e then true else (Zpos m mod 2 ^ (- e) =? 0)
  | _ => false
  end.

(** One step of the loops of [Math.min] and [Math.max] (ECMA-262,
    21.3.2.25 and 21.3.2.24): the running extremum against the next
    argument, with -0 taken to be smaller than +0. *)
Definition min_step (lowest n : number) : number :=
  match n, lowest with
  | S754_zero true, S754_zero false => n
  | _, _ => if lt n lowest then n else lowest
  end.

Definition max_step (highest n : number) : number :=
  match n, highest with
  | S754_zero false, S754_zero true => n
  | _, _ => if lt highest n then n else highest
  end.

(** [Math.min(a, b)] and [Math.max(a, b)]: NaN if an argument is NaN. *)
Definition Math_min (a b : number) : number :=
  if is_nan a || is_nan b then NaN
  else min_step (min_step pos_infinity a) b.

Definition Math_max (a b : number) : number :=
  if is_nan a || is_nan b then NaN
  else max_step (max_step neg_infinity a) b.

(** [Math.floor]: NaN, the zeros, the infinities and the integers are
    returned as they are; otherwise the greatest integer below, which is
    +0 for an argument strictly between 0 and 1. *)
Definition Math_floor (x : number) : number :=
  match x with
  | S754_finite s m e =>
      if 0 <=? e then x
      else
        of_Z (cond_Zopp s (Zpos m) / 2 ^ (- e))
  | _ => x
  end.

(** [Math.round]: the integer nearest to [x], a tie going to the one
    towards +infinity; a result of zero keeps the sign of [x] (so -0 for
    [-0.5 <= x < 0]). *)
Definition Math_round (x : number) : number :=
  match x with
  | S754_finite s m e =>
      if 0 <=? e then x
      else
        let z := (2 * cond_Zopp s (Zpos m) + 2 ^ (- e)) / 2 ^ (- e + 1) in
        if z =? 0 then S754_zero s else of_Z z
  | _ => x
  end.

(** The literals of the source. *)
Definition n0 : number := pos_zero.
Definition n100 : number := Eval vm_compute in of_Z 100.

End Number.

Import Number.

(* ===================================================================== *)
(** * Position/percentage conversions *)
(* ===================================================================== *)

(** What a caller passes for a parameter documented as [{number}]: a
    Number, or nothing ([undefined]), or [null]. *)
Inductive arg : Type :=
| Undefined
| Null
| Num (x : number).

(** ToNumber and ToBoolean on these. *)
Definition ToNumber (a : arg) : number :=
  match a with
  | Undefined => NaN
  | Null => pos_zero
  | Num x => x
  end.

Definition ToBoolean (a : arg) : bool :=
  match a with
  | Undefined | Null => false
  | Num x => truthy x
  end.

(** [if (!totalWords || totalWords <= 0) return 0;] *)
Definition no_words (totalWords : arg) : bool :=
  negb (ToBoolean totalWords) || le (ToNumber totalWords) n0.

Definition percentageToWordIndex (percentage totalWords : arg) : number :=
  if no_words totalWords then n0
  else
    let clamped := Math_max n0 (Math_min n100 (ToNumber percentage)) in
    Math_floor (mul (div clamped n100) (ToNumber totalWords)).

Definition wordIndexToPercentage (wordIndex totalWords : arg) : number :=
  if no_words totalWords then n0
  else Math_round (mul (div (ToNumber wordIndex) (ToNumber totalWords)) n100).

(** Integer arguments, for examples. *)
Definition int (z : Z) : arg := Num (of_Z z).

(* ===================================================================== *)
(** * Language values, JSON, and the host *)
(* ===================================================================== *)

(** The values a session or a stored record is made of.  An object is its
    table of own properties, in insertion order. *)
#[warnings="-register-all"]
Inductive value : Type :=
| VUndefined
| VNull
| VBool (b : bool)
| VNumber (x : number)
| VString (s : string)
| VArray (elems : list value)
| VObject (props : list (string * value)).

(** ToBoolean on values: [!!v]. *)
Definition to_boolean (v : value) : bool :=
  match v with
  | VUndefined | VNull => false
  | VBool b => b
  | VNumber x => truthy x
  | VString s => negb (String.eqb s "")
  | VArray _ | VObject _ => true
  end.

Fixpoint lookup_prop (k : string) (props : list (string * value)) : value :=
  match props with
  | [] => VUndefined
  | (k', v) :: rest => if String.eqb k k' then v else lookup_prop k rest
  end.

Definition has_own (k : string) (v : value) : bool :=
  match v with
  | VObject props => existsb (fun kv => String.eqb k (fst kv)) props
  | _ => false
  end.

Inductive error : Type :=
| TypeError
| SyntaxError
| QuotaExceededError
| SecurityError.

(** ** Strings held by localStorage

    The module never looks inside the string it stores: it writes what
    [JSON.stringify] returns, tests what it reads for emptiness, and hands
    it to [JSON.parse].  A stored string is therefore represented by what
    these observers see of it: either the text of a JSON document, given by
    the value [JSON.parse] reads from it, or characters that are not JSON
    text (the empty string among them), which [JSON.parse] rejects. *)
Inductive dom_string : Type :=
| JsonText (reads_as : value)
| NonJson (chars : string).

(** [!data] for a string. *)
Definition is_empty (d : dom_string) : bool :=
  match d with
  | NonJson s => String.eqb s ""
  | JsonText _ => false
  end.

(** ** JSON

    [json_of v] is what [JSON.parse] reads back from the text
    [JSON.stringify] writes for [v] (ECMA-262, SerializeJSONProperty):
    [undefined] has no text; a non-finite Number is written [null]; -0 is
    written [0]; any other finite Number is written with the digits that
    make it read back as it is; an [undefined] element of an array is
    written [null]; a property whose value is [undefined] is left out. *)
Fixpoint json_of (v : value) : option value :=
  match v with
  | VUndefined => None
  | VNull => Some VNull
  | VBool b => Some (VBool b)
  | VNumber x =>
      Some match x with
           | S754_zero _ => VNumber pos_zero
           | S754_finite _ _ _ => VNumber x
           | _ => VNull
           end
  | VString s => Some (VString s)
  | VArray elems =>
      Some (VArray (List.map (fun e => default VNull (json_of e)) elems))
  | VObject props =>
      Some (VObject
        ((fix members (ps : list (string * value)) :=
            match ps with
            | [] => []
            | (k, e) :: rest =>
                match json_of e with
                | Some j => (k, j) :: members rest
                | None => members rest
                end
            end) props))
  end.

(** [JSON.stringify(v)] as [setItem] receives it.  For [undefined] the
    result is [undefined], which [setItem] turns into the nine characters
    of that word. *)
Definition JSON_stringify (v : value) : dom_string :=
  match json_of v with
  | Some j => JsonText j
  | None => NonJson "undefined"
  end.

(** ** The host: localStorage, the clock and the console *)
Record world : Type := World {
  items : gmap string dom_string;   (* localStorage *)
  denied : bool;                    (* storage access is refused *)
  fits : gmap string dom_string -> string -> dom_string -> bool;
                                    (* the quota admits this write *)
  clock : Z;                        (* milliseconds since the epoch *)
  console : list (string * error)   (* calls of console.error *)
}.

Definition with_items (m : gmap string dom_string) (w : world) : world :=
  World m (denied w) (fits w) (clock w) (console w).

Definition logged (msg : string) (e : error) (w : world) : world :=
  World (items w) (denied w) (fits w) (clock w) (console w ++ [(msg, e)]).

(** ** Computations: a world goes in, a value or a thrown error comes out
    with the world as it then is. *)
Definition M (A : Type) : Type := world -> (error + A) * world.

Definition ret {A} (a : A) : M A := fun w => (inr a, w).
Definition throw {A} (e : error) : M A := fun w => (inl e, w).
Definition bind {A B} (m : M A) (k : A -> M B) : M B :=
  fun w => match m w with
           | (inr a, w') => k a w'
           | (inl e, w') => (inl e, w')
           end.

(** [try { body } catch (e) { handler(e) }] *)
Definition try_catch {A} (body : M A) (handler : error -> M A) : M A :=
  fun w => match body w with
           | (inl e, w') => handler e w'
           | r => r
           end.

Notation "'let*' x := m 'in' k" := (bind m (fun x => k))
  (at level 10, x name, m at level 100, k at level 200).

(** Every access to localStorage throws when the host refuses storage;
    [setItem] also throws when the quota does not admit the value (which
    the host decides from what is stored, the key and the value). *)
Definition localStorage_getItem (key : string) : M (option dom_string) :=
  fun w => if denied w then (inl SecurityError, w) else (inr (items w !! key), w).

Definition localStorage_setItem (key : string) (val : dom_string) : M unit :=
  fun w =>
    if denied w then (inl SecurityError, w)
    else if fits w (items w) key val then
      (inr tt, with_items (<[key := val]> (items w)) w)
    else (inl QuotaExceededError, w).

Definition localStorage_removeItem (key : string) : M unit :=
  fun w =>
    if denied w then (inl SecurityError, w)
    else (inr tt, with_items (delete key (items w)) w).

Definition Date_now : M number := fun w => (inr (of_Z (clock w)), w).

Definition console_error (msg : string) (e : error) : M unit :=
  fun w => (inr tt, logged msg e w).

Definition JSON_parse (text : dom_string) : M value :=
  match text with
  | JsonText v => ret v
  | NonJson _ => throw SyntaxError
  end.

(** [v.k] for the property names this module reads ([text],
    [currentWordIndex], [totalWords], [settings], [savedAt]): a TypeError
    on [undefined] and [null]; the own property of an object; [undefined]
    on any other value, whose prototypes define none of these names. *)
Definition prop_of (v : value) (k : string) : value :=
  match v with
  | VObject props => lookup_prop k props
  | _ => VUndefined
  end.

Definition Get (v : value) (k : string) : M value :=
  match v with
  | VUndefined | VNull => throw TypeError
  | _ => ret (prop_of v k)
  end.

(* ===================================================================== *)
(** * The storage operations *)
(* ===================================================================== *)

Definition STORAGE_KEY : string := "rsvp-reading-session".

Definition saveSession (session : value) : M bool :=
  try_catch
    (let* text := Get session "text" in
     let* currentWordIndex := Get session "currentWordIndex" in
     let* totalWords := Get session "totalWords" in
     let* settings := Get session "settings" in
     let* savedAt := Date_now in
     let data := VObject [("text", text);
                          ("currentWordIndex", currentWordIndex);
                          ("totalWords", totalWords);
                          ("settings", settings);
                          ("savedAt", VNumber savedAt)] in
     let* _ := localStorage_setItem STORAGE_KEY (JSON_stringify data) in
     ret true)
    (fun error =>
       let* _ := console_error "Failed to save session:" error in
       ret false).

Definition loadSession : M value :=
  try_catch
    (let* data := localStorage_getItem STORAGE_KEY in
     match data with
     | None => ret VNull
     | Some text => if is_empty text then ret VNull else JSON_parse text
     end)
    (fun error =>
       let* _ := console_error "Failed to load session:" error in
       ret VNull).

Definition hasSession : M bool :=
  try_catch
    (let* data := localStorage_getItem STORAGE_KEY in
     ret (match data with None => false | Some _ => true end))
    (fun _ => ret false).

Definition clearSession : M bool :=
  try_catch
    (let* _ := localStorage_removeItem STORAGE_KEY in
     ret true)
    (fun error =>
       let* _ := console_error "Failed to clear session:" error in
       ret false).

Definition getSessionSummary : M value :=
  try_catch
    (let* data := localStorage_getItem STORAGE_KEY in
     match data with
     | None => ret VNull
     | Some text =>
         if is_empty text then ret VNull
         else
           let* parsed := JSON_parse text in
           let* currentWordIndex := Get parsed "currentWordIndex" in
           let* totalWords := Get parsed "totalWords" in
           let* savedAt := Get parsed "savedAt" in
           let* text' := Get parsed "text" in
           ret (VObject [("currentWordIndex", currentWordIndex);
                         ("totalWords", totalWords);
                         ("savedAt", savedAt);
                         ("hasText", VBool (to_boolean text'))])
     end)
    (fun _ => ret VNull).

(* ===================================================================== *)
(** * Vocabulary for the statements about Numbers *)
(* ===================================================================== *)

(** The value of a finite Number, counted in units of 2^-1074 (the least
    positive Number): an integer for every valid Number. *)
Definition ulps (x : number) : Z :=
  match x with
  | S754_finite s m e => cond_Zopp s (Zpos m * 2 ^ (e + 1074))
  | _ => 0
  end.

(** The guard as the specification words it: [totalWords] is absent, zero
    or negative. *)
Definition absent_zero_or_negative (t : arg) : bool :=
  match t with
  | Undefined | Null => true
  | Num (S754_zero _) => true
  | Num x => lt x n0
  end.

(** [(clamp(p, 0, 100) / 100) * t] and [(w / t) * 100], as Numbers. *)
Definition share (p t : number) : number :=
  mul (div (Math_max n0 (Math_min n100 p)) n100) t.

Definition ratio (w t : number) : number :=
  mul (div w t) n100.

(** [floor((clamp(p, 0, 100) / 100) * t)] and [round((w / t) * 100)]. *)
Definition floor_of_share (p t : arg) : number :=
  Math_floor (share (ToNumber p) (ToNumber t)).

Definition rounded_percentage (w t : arg) : number :=
  Math_round (ratio (ToNumber w) (ToNumber t)).

(** An integer in the closed range [[0, t]]. *)
Definition integer_in_range (r t : number) : Prop :=
  isInteger r = true /\ le n0 r = true /\ le r t = true.

(** [r] is the floor of [y]: an integer with [r <= y < r + 1]. *)
Definition floor_of (r y : number) : Prop :=
  isInteger r = true /\ ulps r <= ulps y < ulps r + 2 ^ 1074.

(** [r] is the integer nearest to [y], the upper one at a tie:
    [r <= y + 1/2 < r + 1]. *)
Definition nearest_integer (r y : number) : Prop :=
  isInteger r = true /\
  2 * ulps r <= 2 * ulps y + 2 ^ 1074 < 2 * ulps r + 2 ^ 1075.

(** A percentage outside [[0, 100]]. *)
Definition outside_0_100 (r : number) : Prop :=
  lt r n0 = true \/ lt n100 r = true.

(** The conversions as the specification states them, at given arguments. *)
Definition stated_percentageToWordIndex (p t : arg) : Prop :=
  if absent_zero_or_negative t then percentageToWordIndex p t = n0
  else
    percentageToWordIndex p t = floor_of_share p t /\
    integer_in_range (percentageToWordIndex p t) (ToNumber t) /\
    (ToNumber p = n100 -> percentageToWordIndex p t = ToNumber t).

Definition stated_wordIndexToPercentage (w t : arg) : Prop :=
  if absent_zero_or_negative t then wordIndexToPercentage w t = n0
  else
    wordIndexToPercentage w t = rounded_percentage w t /\
    (lt (ToNumber t) (ToNumber w) = true \/ lt (ToNumber w) n0 = true ->
     outside_0_100 (wordIndexToPercentage w t)).

(** The Number 1. *)
Definition one : number := S754_finite false 4503599627370496 (-52).

(** [located N D m l]: the rational [N / D] lies in [[m, m+1)] where the
    location [l] says: at [m] exactly, or strictly inside and below, at or
    above the midpoint. *)
Definition located (N D m : Z) (l : location) : Prop :=
  match l with
  | loc_Exact => N = m * D
  | loc_Inexact c => m * D < N < (m + 1) * D /\ (2 * N ?= (2 * m + 1) * D) = c
  end.

(* ===================================================================== *)
(** * Vocabulary for the statements about the store *)
(* ===================================================================== *)

(** The string in the module's slot, if any. *)
Definition slot (w : world) : option dom_string := items w !! STORAGE_KEY.

(** The record [saveSession] builds from a session at a given time. *)
Definition record_of (session : value) (now : Z) : value :=
  VObject [("text", prop_of session "text");
           ("currentWordIndex", prop_of session "currentWordIndex");
           ("totalWords", prop_of session "totalWords");
           ("settings", prop_of session "settings");
           ("savedAt", VNumber (of_Z now))].

(** How often a property name occurs in a record. *)
Definition occurrences (k : string) (props : list (string * value)) : nat :=
  length (List.filter (fun kv => String.eqb k (fst kv)) props).

(** The four fields a caller supplies. *)
Definition session_fields : list string :=
  ["text"; "currentWordIndex"; "totalWords"; "settings"].

(** A value that JSON represents as it is. *)
Definition json_value (v : value) : Prop := json_of v = Some v.

(** A valid session: an object whose four fields are present and are
    JSON values. *)
Definition valid_session (props : list (string * value)) : Prop :=
  forall k, In k session_fields -> json_value (lookup_prop k props).

(** A time the clock can show: a time value after the epoch (ECMA-262
    keeps time values within 8.64e15 milliseconds of it), hence an integer
    that is a Number exactly. *)
Definition time_value (t : Z) : Prop := 0 <= t <= 8640000000000000.

(** The summary as the specification states it, for the record stored in
    a world. *)
Definition stated_summary (w : world) : Prop :=
  forall props,
    denied w = false -> slot w = Some (JsonText (VObject props)) ->
    exists sprops,
      getSessionSummary w = (inr (VObject sprops), w) /\
      has_own "text" (VObject sprops) = false /\
      (lookup_prop "hasText" sprops = VBool true <->
       exists s, lookup_prop "text" props = VString s /\ s <> ""%string).

(** The containment of failures as the specification states it, for a
    session and a world: a save whose write throws returns false with one
    entry logged, and a load of stored text that does not parse returns
    [null] with one entry logged. *)
Definition stated_containment (session : value) (w : world) : Prop :=
  (forall e,
      fst (localStorage_setItem STORAGE_KEY
             (JSON_stringify (record_of session (clock w))) w) = inl e ->
      exists e', saveSession session w =
                   (inr false, logged "Failed to save session:" e' w)) /\
  (forall text e,
      denied w = false -> slot w = Some text ->
      fst (JSON_parse text w) = inl e ->
      exists e', loadSession w =
                   (inr VNull, logged "Failed to load session:" e' w)).

(** ** Examples: a host with an empty store, a session, a stored record
    whose [text] is a Number. *)
Definition example_world : world :=
  World ∅ false (fun _ _ _ => true) 1700000000000 [].

Definition example_session : list (string * value) :=
  [("text", VString "the quick brown fox");
   ("currentWordIndex", VNumber (of_Z 2));
   ("totalWords", VNumber (of_Z 4));
   ("settings", VObject [("wpm", VNumber (of_Z 300)); ("fontSize", VString "large")]);
   ("savedAt", VNumber (of_Z 5))].

Definition world_holding (text : dom_string) : world :=
  World {[ STORAGE_KEY := text ]} false (fun _ _ _ => true) 1700000000000 [].

Definition numeric_text_record : list (string * value) :=
  [("text", VNumber (of_Z 42)); ("currentWordIndex", VNumber (of_Z 0))].

(** A host whose quota has room for the empty string and nothing more. *)
Definition nearly_full_world : world :=
  World ∅ false (fun _ _ text => is_empty text) 1700000000000 [].

(** ** Vocabulary for further properties of the store *)

(** What the value of a property reads as once it has been written by
    [JSON.stringify] and read by [JSON.parse]: a property without JSON
    text is not written, and reads as [undefined]. *)
Definition json_image (v : value) : value := default VUndefined (json_of v).

(** The summary [getSessionSummary] makes of a parsed value; [null] and
    [undefined] have no properties to read. *)
Definition summary_of (parsed : value) : value :=
  match parsed with
  | VUndefined | VNull => VNull
  | _ => VObject [("currentWordIndex", prop_of parsed "currentWordIndex");
                  ("totalWords", prop_of parsed "totalWords");
                  ("savedAt", prop_of parsed "savedAt");
                  ("hasText", VBool (to_boolean (prop_of parsed "text")))]
  end.

(** A value other than [null] and [undefined] that is no record: reading
    a field of it gives [undefined]. *)
Definition fieldless (v : value) : bool :=
  match v with
  | VBool _ | VNumber _ | VString _ | VArray _ => true
  | _ => false
  end.

(** [r] is the Number for [R * 2^E'], [R >= 0]: a zero, or a canonical
    mantissa and exponent, or +Infinity when that exponent is out of
    range. *)
Definition rounds_to (r : number) (R E' : Z) : Prop :=
  (R = 0 /\ r = S754_zero false) \/
  (exists m e,
      Zpos m * 2 ^ (e - E') = R /\ E' <= e /\
      canonical_mantissa prec emax m e = true /\
      r = if e <=? 971 then S754_finite false m e else S754_infinity false).

(** A world where storage is refused, and one holding a record and a
    foreign key. *)
Definition refusing_world : world :=
  World ∅ true (fun _ _ _ => true) 1700000000000 [].

Definition shared_world : world :=
  World {[ "theme"%string := NonJson "dark" ]} false (fun _ _ _ => true) 1700000000000 [].


Definition lossy_session : list (string * value) :=
  [("text", VString "");
   ("currentWordIndex", VNumber neg_zero);
   ("totalWords", VNumber NaN)].

(* ===================================================================== *)
(** * Facts about binary64 rounding *)
(* ===================================================================== *)

Module NumberFacts.

Lemma pow2_pos (k : Z) : 0 <= k -> 0 < 2 ^ k.
Proof. intros; apply Z.pow_pos_nonneg; lia. Qed.

Lemma pow2_succ (k : Z) : 0 <= k -> 2 ^ (k + 1) = 2 * 2 ^ k.
Proof. intros; rewrite Z.pow_add_r by lia; lia. Qed.

Lemma pow2_le (a b : Z) : 0 <= a <= b -> 2 ^ a <= 2 ^ b.
Proof. intros; apply Z.pow_le_mono_r; lia. Qed.

Lemma pow2_lt (a b : Z) : 0 <= a < b -> 2 ^ a < 2 ^ b.
Proof. intros; apply Z.pow_lt_mono_r; lia. Qed.

(** [digits2_pos m] is the length of [m] in binary. *)
Lemma digits2_pos_bounds (m : positive) :
  2 ^ (Zpos (digits2_pos m) - 1) <= Zpos m < 2 ^ Zpos (digits2_pos m).
Proof.
  induction m as [p IH | p IH | ]; cbn [digits2_pos].
  - rewrite Pos2Z.inj_succ, (Pos2Z.inj_xI p).
    replace (Z.succ (Zpos (digits2_pos p)) - 1) with (Zpos (digits2_pos p) - 1 + 1) by lia.
    unfold Z.succ. rewrite !pow2_succ by lia. lia.
  - rewrite Pos2Z.inj_succ, (Pos2Z.inj_xO p).
    replace (Z.succ (Zpos (digits2_pos p)) - 1) with (Zpos (digits2_pos p) - 1 + 1) by lia.
    unfold Z.succ. rewrite !pow2_succ by lia. lia.
  - cbn. lia.
Qed.

Lemma Zdigits2_bounds (m : Z) :
  0 < m -> 2 ^ (Zdigits2 m - 1) <= m < 2 ^ Zdigits2 m.
Proof. destruct m; try lia. intros _. apply digits2_pos_bounds. Qed.

Lemma Zdigits2_nonneg (m : Z) : 0 <= Zdigits2 m.
Proof. destruct m; cbn; lia. Qed.

(** A number below [2^k] has at most [k] digits; one that reaches
    [2^(k-1)] has at least [k]. *)
Lemma Zdigits2_le (m k : Z) : 0 <= m < 2 ^ k -> 0 <= k -> Zdigits2 m <= k.
Proof.
  intros [H0 H] Hk. destruct (Z.eq_dec m 0) as [->|]; [cbn; lia|].
  destruct (Z_le_gt_dec (Zdigits2 m) k) as [|Hgt]; [assumption|exfalso].
  pose proof (Zdigits2_bounds m ltac:(lia)) as [Hl _].
  pose proof (pow2_le k (Zdigits2 m - 1) ltac:(lia)). lia.
Qed.

Lemma Zdigits2_ge (m k : Z) : 2 ^ (k - 1) <= m -> 1 <= k -> k <= Zdigits2 m.
Proof.
  intros H Hk.
  assert (0 < m) by (pose proof (pow2_pos (k - 1) ltac:(lia)); lia).
  destruct (Z_le_gt_dec k (Zdigits2 m)) as [|Hgt]; [assumption|exfalso].
  pose proof (Zdigits2_bounds m ltac:(lia)) as [_ Hu].
  pose proof (Zdigits2_nonneg m).
  pose proof (pow2_le (Zdigits2 m) (k - 1) ltac:(lia)). lia.
Qed.

Ltac cmp :=
  repeat match goal with
  | H : (?a ?= ?b) = Lt |- _ => progress change (a < b) in H
  | H : (?a ?= ?b) = Gt |- _ => progress change (a > b) in H
  | H : (_ ?= _) = Eq |- _ => apply Z.compare_eq_iff in H
  | |- (?a ?= ?b) = Lt => progress change (a < b)
  | |- (?a ?= ?b) = Gt => progress change (a > b)
  | |- (_ ?= _) = Eq => apply Z.compare_eq_iff
  end.

(** One shift to the right halves the mantissa and keeps track of where
    the shifted-out part lies. *)
Lemma shr_1_located (N D : Z) (mrs : shr_record) :
  0 <= shr_m mrs -> 0 < D ->
  located N D (shr_m mrs) (loc_of_shr_record mrs) ->
  0 <= shr_m (shr_1 mrs) /\
  located N (2 * D) (shr_m (shr_1 mrs)) (loc_of_shr_record (shr_1 mrs)).
Proof.
  destruct mrs as [m r s]. cbn [shr_m]. intros Hm HD H.
  destruct m as [|[p|p|]|]; try lia;
    destruct r, s; cbn in *; unfold located in *;
    repeat match goal with H : _ /\ _ |- _ => destruct H end; cmp;
    repeat split; cmp; try lia.
Qed.

Lemma iter_shr_1_located (p : positive) :
  forall (N D : Z) (mrs : shr_record),
  0 <= shr_m mrs -> 0 < D ->
  located N D (shr_m mrs) (loc_of_shr_record mrs) ->
  0 <= shr_m (SpecFloat.iter_pos shr_1 p mrs) /\
  located N (D * 2 ^ Zpos p) (shr_m (SpecFloat.iter_pos shr_1 p mrs))
          (loc_of_shr_record (SpecFloat.iter_pos shr_1 p mrs)).
Proof.
  induction p as [p IH | p IH | ]; intros N D mrs Hm HD H; cbn [SpecFloat.iter_pos].
  - destruct (shr_1_located N D mrs Hm HD H) as [H1 H2].
    destruct (IH N (2 * D) _ H1 ltac:(lia) H2) as [H3 H4].
    destruct (IH N (2 * D * 2 ^ Zpos p) _ H3
                ltac:(pose proof (pow2_pos (Zpos p)); nia) H4) as [H5 H6].
    split; [assumption|].
    replace (D * 2 ^ Zpos p~1) with (2 * D * 2 ^ Zpos p * 2 ^ Zpos p); [assumption|].
    rewrite (Pos2Z.inj_xI p).
    replace (2 * Zpos p + 1) with (Zpos p + Zpos p + 1) by lia.
    rewrite !Z.pow_add_r by lia. change (2 ^ 1) with 2. ring.
  - destruct (IH N D _ Hm HD H) as [H3 H4].
    destruct (IH N (D * 2 ^ Zpos p) _ H3
                ltac:(pose proof (pow2_pos (Zpos p)); nia) H4) as [H5 H6].
    split; [assumption|].
    replace (D * 2 ^ Zpos p~0) with (D * 2 ^ Zpos p * 2 ^ Zpos p); [assumption|].
    rewrite (Pos2Z.inj_xO p).
    replace (2 * Zpos p) with (Zpos p + Zpos p) by lia.
    rewrite !Z.pow_add_r by lia. ring.
  - destruct (shr_1_located N D mrs Hm HD H) as [H1 H2].
    split; [assumption|]. change (2 ^ 1) with 2.
    replace (D * 2) with (2 * D) by lia. assumption.
Qed.

Lemma fexp_eq (e : Z) : fexp prec emax e = Z.max (e - 53) (-1074).
Proof. reflexivity. Qed.

Lemma loc_of_shr_record_of_loc (m : Z) (l : location) :
  loc_of_shr_record (shr_record_of_loc m l) = l /\
  shr_m (shr_record_of_loc m l) = m.
Proof. destruct l as [|[]]; split; reflexivity. Qed.

(** The first step of rounding: the mantissa is cut down to the
    exponent the format gives the number. *)
Lemma shr_fexp_located (N D M E : Z) (l : location) :
  0 <= M -> 0 < D -> located N D M l ->
  E <= fexp prec emax (Zdigits2 M + E) ->
  forall mrs e', shr_fexp prec emax M E l = (mrs, e') ->
  e' = fexp prec emax (Zdigits2 M + E) /\
  0 <= shr_m mrs /\
  located N (D * 2 ^ (e' - E)) (shr_m mrs) (loc_of_shr_record mrs).
Proof.
  intros HM HD Hloc HE mrs e'. unfold shr_fexp, shr.
  destruct (loc_of_shr_record_of_loc M l) as [Hl Hm].
  destruct (fexp prec emax (Zdigits2 M + E) - E) as [|n|n] eqn:Hn; try lia.
  - intros [= <- <-]. rewrite Hl, Hm.
    replace (E - E) with 0 by lia. rewrite Z.pow_0_r, Z.mul_1_r.
    repeat split; try assumption; lia.
  - intros [= <- <-].
    replace (E + Zpos n - E) with (Zpos n) by lia.
    split; [lia|].
    apply iter_shr_1_located; rewrite ?Hl, ?Hm; assumption.
Qed.

(** What is cut off is the floor. *)
Lemma located_floor (N D M k M' : Z) (l l' : location) :
  0 < D -> 0 <= k -> located N D M l -> located N (D * 2 ^ k) M' l' ->
  M' * 2 ^ k <= M < (M' + 1) * 2 ^ k.
Proof.
  intros HD Hk H H'. pose proof (pow2_pos k Hk) as Hp.
  assert (M * D <= N < (M + 1) * D) as [H1 H2]
    by (destruct l; unfold located in H; nia).
  assert (M' * (D * 2 ^ k) <= N < (M' + 1) * (D * 2 ^ k)) as [H3 H4]
    by (destruct l'; unfold located in H'; nia).
  split.
  - assert (M' * 2 ^ k * D < (M + 1) * D) by nia.
    assert (M' * 2 ^ k < M + 1) by nia. lia.
  - assert (M * D < (M' + 1) * 2 ^ k * D) by nia. nia.
Qed.

Lemma round_nearest_even_located (N D M : Z) (l : location) :
  0 < D -> located N D M l ->
  let R := round_nearest_even M l in
  (forall K, N <= K * D -> R <= K) /\ (forall K, K * D <= N -> K <= R) /\
  M <= R <= M + 1.
Proof.
  intros HD H R. subst R.
  destruct l as [|c]; cbn [round_nearest_even located] in *.
  - repeat split; try lia; intros K HK; nia.
  - destruct H as [[H1 H2] _].
    assert (M <= (match c with
                  | Eq => if Z.even M then M else M + 1
                  | Lt => M
                  | Gt => M + 1
                  end) <= M + 1) by (destruct c, (Z.even M); lia).
    repeat split; try lia; intros K HK.
    + assert (M * D < K * D) by lia. assert (M < K) by nia. lia.
    + assert (K * D < (M + 1) * D) by lia. assert (K < M + 1) by nia. lia.
Qed.

Lemma shr_fexp_fixed (R E : Z) :
  fexp prec emax (Zdigits2 R + E) = E ->
  shr_fexp prec emax R E loc_Exact = (Build_shr_record R false false, E).
Proof.
  intros H. unfold shr_fexp. rewrite H, Z.sub_diag. reflexivity.
Qed.

Lemma Zdigits2_eq (m k : Z) : 2 ^ (k - 1) <= m < 2 ^ k -> 1 <= k -> Zdigits2 m = k.
Proof.
  intros [H1 H2] Hk.
  assert (0 < m) by (pose proof (pow2_pos (k - 1) ltac:(lia)); lia).
  pose proof (Zdigits2_le m k ltac:(lia) ltac:(lia)).
  pose proof (Zdigits2_ge m k H1 Hk). lia.
Qed.

(** ** Rounding to nearest even, characterised

    [binary_round_aux s M E l] rounds the rational [N / D * 2^E], known
    through its floor [M] and location [l], to the grid of step [2^E']
    that the format gives it.  The result [R * 2^E'] stays on the same
    side of every point [K * 2^E'] of that grid as the rational; it is a
    zero, or a canonical mantissa and exponent (or an infinity when that
    exponent is out of range). *)
Lemma binary_round_aux_spec (s : bool) (N D M E : Z) (l : location) :
  0 <= M -> 0 < D -> located N D M l ->
  E <= fexp prec emax (Zdigits2 M + E) ->
  let E' := fexp prec emax (Zdigits2 M + E) in
  exists R : Z,
    (forall K, N <= K * (D * 2 ^ (E' - E)) -> R <= K) /\
    (forall K, K * (D * 2 ^ (E' - E)) <= N -> K <= R) /\
    ((R = 0 /\ binary_round_aux prec emax s M E l = S754_zero s) \/
     (exists m e,
         Zpos m * 2 ^ (e - E') = R /\ E' <= e /\
         canonical_mantissa prec emax m e = true /\
         binary_round_aux prec emax s M E l =
           if e <=? 971 then S754_finite s m e else S754_infinity s)).
Proof.
  intros HM HD Hloc HE E'. unfold binary_round_aux.
  destruct (shr_fexp prec emax M E l) as [mrs e'] eqn:H1.
  destruct (shr_fexp_located N D M E l HM HD Hloc HE _ _ H1) as (-> & HM' & Hloc').
  fold E' in Hloc' |- *.
  assert (0 <= E' - E) as Hk by (subst E'; lia).
  pose proof (pow2_pos _ Hk) as Hpk.
  pose proof (located_floor _ _ _ _ _ _ _ HD Hk Hloc Hloc') as Hfl.
  set (M' := shr_m mrs) in *. set (l' := loc_of_shr_record mrs) in *.
  destruct (round_nearest_even_located N (D * 2 ^ (E' - E)) M' l' ltac:(nia) Hloc')
    as (HU & HL & HR).
  set (R := round_nearest_even M' l') in *.
  exists R. split; [exact HU|]. split; [exact HL|].
  pose proof (Zdigits2_nonneg M) as HdM.
  assert (E' = Z.max (Zdigits2 M + E - 53) (-1074)) as HE' by (subst E'; apply fexp_eq).
  destruct (Z_le_gt_dec (-1074) (Zdigits2 M + E - 53)) as [Hn | Hsub].
  - (* the normal range: the cut mantissa has 53 digits *)
    assert (E' - E = Zdigits2 M - 53) as Hkk by lia.
    assert (0 < M) as HMpos by (destruct M; cbn in *; lia).
    pose proof (Zdigits2_bounds M HMpos) as [Hb1 Hb2].
    assert (2 ^ Zdigits2 M = 2 ^ 53 * 2 ^ (E' - E)) as Hp1
      by (rewrite <- Z.pow_add_r by lia; f_equal; lia).
    assert (2 ^ (Zdigits2 M - 1) = 2 ^ 52 * 2 ^ (E' - E)) as Hp2
      by (rewrite <- Z.pow_add_r by lia; f_equal; lia).
    assert (2 ^ 52 <= M' < 2 ^ 53) as HM'b by nia.
    right.
    destruct (Z.eq_dec R (2 ^ 53)) as [HR53 | HR53].
    + exists 4503599627370496%positive, (E' + 1).
      replace (E' + 1 - E') with 1 by lia.
      split; [rewrite HR53; reflexivity|]. split; [lia|].
      split.
      * unfold canonical_mantissa. rewrite fexp_eq.
        change (Zpos (digits2_pos 4503599627370496)) with 53.
        apply Z.eqb_eq. lia.
      * rewrite HR53. unfold shr_fexp. rewrite fexp_eq.
        change (Zdigits2 (2 ^ 53)) with 54.
        replace (Z.max (54 + E' - 53) (-1074) - E') with 1 by lia.
        cbn. replace (E' + 1 <=? 971) with (E' + 1 <=? 1024 - 53) by reflexivity.
        reflexivity.
    + assert (2 ^ 52 <= R < 2 ^ 53) as HRb by lia.
      pose proof (Zdigits2_eq R 53 HRb ltac:(lia)) as HdR.
      rewrite shr_fexp_fixed by (rewrite fexp_eq, HdR; lia).
      cbn [shr_m].
      destruct R as [|m|m]; try (cbn in HRb; lia).
      exists m, E'. rewrite Z.sub_diag, Z.pow_0_r.
      split; [lia|]. split; [lia|]. split; [|reflexivity].
      unfold canonical_mantissa. apply Z.eqb_eq.
      change (Zpos (digits2_pos m)) with (Zdigits2 (Zpos m)).
      rewrite fexp_eq, HdR. lia.
  - (* the subnormal range: exponent -1074, at most 52 digits before rounding *)
    assert (E' = -1074) as HEs by lia.
    assert (M' < 2 ^ 52) as HM'b.
    { destruct (Z.eq_dec M 0) as [HM0 | HM0]; [nia|].
      pose proof (Zdigits2_bounds M ltac:(lia)) as [_ Hb2].
      assert (Zdigits2 M <= 52 + (E' - E)) by lia.
      pose proof (pow2_le (Zdigits2 M) (52 + (E' - E)) ltac:(lia)) as Hle.
      rewrite Z.pow_add_r in Hle by lia. nia. }
    assert (0 <= R <= 2 ^ 52) as HRb by lia.
    assert (fexp prec emax (Zdigits2 R + E') = E') as Hfix.
    { rewrite fexp_eq.
      pose proof (Zdigits2_le R 53 ltac:(change (2 ^ 53) with (2 * 2 ^ 52); lia) ltac:(lia)).
      lia. }
    rewrite (shr_fexp_fixed _ _ Hfix). cbn [shr_m].
    destruct R as [|m|m]; try lia.
    + left. split; reflexivity.
    + right. exists m, E'. rewrite Z.sub_diag, Z.pow_0_r.
      split; [lia|]. split; [lia|]. split.
      * unfold canonical_mantissa. apply Z.eqb_eq. exact Hfix.
      * reflexivity.
Qed.

(** ** Valid Numbers and their order *)

Lemma canonical_inv (m : positive) (e : Z) :
  canonical_mantissa prec emax m e = true ->
  -1074 <= e /\ Zpos m < 2 ^ 53 /\ (e = -1074 \/ 2 ^ 52 <= Zpos m).
Proof.
  unfold canonical_mantissa. rewrite fexp_eq. intros H%Z.eqb_eq.
  pose proof (digits2_pos_bounds m) as [Hl Hu].
  assert (Zpos (digits2_pos m) <= 53) as Hd by lia.
  split; [lia|]. split.
  - pose proof (pow2_le (Zpos (digits2_pos m)) 53 ltac:(lia)). lia.
  - destruct (Z.eq_dec e (-1074)); [left; assumption|right].
    replace (Zpos (digits2_pos m)) with 53 in Hl by lia. exact Hl.
Qed.

Lemma bounded_inv (m : positive) (e : Z) :
  bounded prec emax m e = true ->
  -1074 <= e <= 971 /\ Zpos m < 2 ^ 53 /\ (e = -1074 \/ 2 ^ 52 <= Zpos m).
Proof.
  unfold bounded. intros [Hc He%Z.leb_le]%andb_true_iff.
  apply canonical_inv in Hc. change (emax - prec) with 971 in He. lia.
Qed.

Lemma compare_scale (a b p : Z) : 0 < p -> (a * p ?= b * p) = (a ?= b).
Proof.
  intros Hp. destruct (Z.compare_spec a b) as [-> | H | H].
  - apply Z.compare_refl.
  - apply Z.compare_lt_iff. nia.
  - apply Z.compare_gt_iff. nia.
Qed.

(** On canonical data the order of [SFcompare] (exponents first, then
    mantissas) is the order of the values. *)
Lemma compare_canonical (m1 m2 : positive) (e1 e2 : Z) :
  canonical_mantissa prec emax m1 e1 = true ->
  canonical_mantissa prec emax m2 e2 = true ->
  match e1 ?= e2 with
  | Lt => Lt
  | Gt => Gt
  | Eq => Pos.compare_cont Eq m1 m2
  end = (Zpos m1 * 2 ^ (e1 + 1074) ?= Zpos m2 * 2 ^ (e2 + 1074)).
Proof.
  intros (He1 & Hu1 & Hn1)%canonical_inv (He2 & Hu2 & Hn2)%canonical_inv.
  destruct (Z.compare_spec e1 e2) as [-> | H | H].
  - rewrite compare_scale by (apply pow2_pos; lia). reflexivity.
  - symmetry. apply Z.compare_lt_iff.
    assert (2 ^ 52 <= Zpos m2) by lia.
    pose proof (pow2_pos (e1 + 1074) ltac:(lia)).
    pose proof (pow2_le (e1 + 1074 + 1) (e2 + 1074) ltac:(lia)) as Hp.
    rewrite pow2_succ in Hp by lia.
    change (2 ^ 53) with (2 * 2 ^ 52) in Hu1. nia.
  - symmetry. apply Z.compare_gt_iff.
    assert (2 ^ 52 <= Zpos m1) by lia.
    pose proof (pow2_pos (e2 + 1074) ltac:(lia)).
    pose proof (pow2_le (e2 + 1074 + 1) (e1 + 1074) ltac:(lia)) as Hp.
    rewrite pow2_succ in Hp by lia.
    change (2 ^ 53) with (2 * 2 ^ 52) in Hu2. nia.
Qed.

Lemma ulps_pos (m : positive) (e : Z) : -1074 <= e -> 0 < Zpos m * 2 ^ (e + 1074).
Proof. intros. pose proof (pow2_pos (e + 1074) ltac:(lia)). nia. Qed.

(** For valid finite Numbers, comparing is comparing [ulps]. *)
Lemma SFcompare_ulps (x y : number) :
  valid x = true -> valid y = true ->
  is_finite x = true -> is_finite y = true ->
  SFcompare x y = Some (ulps x ?= ulps y).
Proof.
  destruct x as [sx| | |sx mx ex], y as [sy| | |sy my ey]; try discriminate;
    cbn [valid valid_binary is_finite ulps SFcompare]; intros Hx Hy _ _.
  - reflexivity.
  - apply bounded_inv in Hy. pose proof (ulps_pos my ey ltac:(lia)).
    destruct sy; cbn [cond_Zopp]; f_equal; symmetry;
      [apply Z.compare_gt_iff | apply Z.compare_lt_iff]; lia.
  - apply bounded_inv in Hx. pose proof (ulps_pos mx ex ltac:(lia)).
    destruct sx; cbn [cond_Zopp]; f_equal; symmetry;
      [apply Z.compare_lt_iff | apply Z.compare_gt_iff]; lia.
  - unfold bounded in Hx, Hy.
    apply andb_true_iff in Hx as [Hx Hx'], Hy as [Hy Hy'].
    pose proof (canonical_inv _ _ Hx) as (? & _ & _).
    pose proof (canonical_inv _ _ Hy) as (? & _ & _).
    pose proof (ulps_pos mx ex ltac:(lia)). pose proof (ulps_pos my ey ltac:(lia)).
    destruct sx, sy; cbn [cond_Zopp]; f_equal.
    + rewrite Z.compare_opp, <- (compare_canonical _ _ _ _ Hy Hx).
      rewrite (Z.compare_antisym ex ey).
      destruct (ex ?= ey); cbn [CompOpp]; try reflexivity.
      apply Pos.compare_cont_antisym.
    + symmetry; apply Z.compare_lt_iff; lia.
    + symmetry; apply Z.compare_gt_iff; lia.
    + apply compare_canonical; assumption.
Qed.

Lemma le_ulps (x y : number) :
  valid x = true -> valid y = true ->
  is_finite x = true -> is_finite y = true ->
  le x y = true <-> ulps x <= ulps y.
Proof.
  intros Hx Hy Fx Fy. unfold le, SFleb. rewrite (SFcompare_ulps x y Hx Hy Fx Fy).
  destruct (Z.compare_spec (ulps x) (ulps y)); split; intros; try lia; try discriminate.
  all: reflexivity.
Qed.

Lemma lt_ulps (x y : number) :
  valid x = true -> valid y = true ->
  is_finite x = true -> is_finite y = true ->
  lt x y = true <-> ulps x < ulps y.
Proof.
  intros Hx Hy Fx Fy. unfold lt, SFltb. rewrite (SFcompare_ulps x y Hx Hy Fx Fy).
  destruct (Z.compare_spec (ulps x) (ulps y)); split; intros; try lia; try discriminate.
  all: reflexivity.
Qed.

(** ** Rounding does not cross a Number

    If the rational [N / D * 2^E] is at most the Number [my * 2^ey], so
    is what it rounds to. *)
Lemma round_le_bound (N D M E : Z) (l : location) (my : positive) (ey : Z) :
  0 <= M -> 0 < D -> located N D M l ->
  E <= fexp prec emax (Zdigits2 M + E) ->
  bounded prec emax my ey = true -> E <= ey ->
  N <= Zpos my * 2 ^ (ey - E) * D ->
  let r := binary_round_aux prec emax false M E l in
  valid r = true /\ is_finite r = true /\
  (r = pos_zero \/ exists m e, r = S754_finite false m e) /\
  ulps r <= Zpos my * 2 ^ (ey + 1074).
Proof.
  intros HM HD Hloc HE Hy HEy HN r.
  destruct (bounded_inv _ _ Hy) as (Hey & Hmy & Hny).
  pose proof (ulps_pos my ey ltac:(lia)) as Hypos.
  destruct (binary_round_aux_spec false N D M E l HM HD Hloc HE) as (R & HU & _ & Hshape).
  fold r in Hshape.
  set (E' := fexp prec emax (Zdigits2 M + E)) in *.
  assert (E' = Z.max (Zdigits2 M + E - 53) (-1074)) as HE' by (subst E'; apply fexp_eq).
  assert (M * D <= N) as HMN by (destruct l; unfold located in Hloc; nia).
  assert (E' <= ey) as HE'y.
  { destruct (Z_le_gt_dec (Zdigits2 M + E - 53) ey) as [|Hgt]; [lia|exfalso].
    pose proof (Zdigits2_nonneg M).
    assert (0 < M) as HMpos by (destruct M; cbn in *; lia).
    pose proof (Zdigits2_bounds M HMpos) as [Hb1 _].
    pose proof (pow2_le (53 + (ey - E)) (Zdigits2 M - 1) ltac:(lia)) as Hp.
    rewrite Z.pow_add_r in Hp by lia.
    pose proof (pow2_pos (ey - E) ltac:(lia)).
    assert (M * D <= Zpos my * 2 ^ (ey - E) * D) as H1 by lia.
    apply Z.mul_le_mono_pos_r in H1; [|assumption]. nia. }
  assert (2 ^ (ey - E) = 2 ^ (ey - E') * 2 ^ (E' - E)) as Hsplit
    by (rewrite <- Z.pow_add_r by lia; f_equal; lia).
  assert (R <= Zpos my * 2 ^ (ey - E')) as HR.
  { apply HU. rewrite Hsplit in HN. nia. }
  destruct Hshape as [[HR0 Hr] | (m & e & Hme & HEe & Hc & Hr)].
  - rewrite Hr. cbn. repeat split; try reflexivity; [left; reflexivity | lia].
  - destruct (canonical_inv _ _ Hc) as (He & Hm & Hn).
    assert (e <= 971) as He971.
    { destruct (Z_le_gt_dec e 971) as [|Hgt]; [assumption|exfalso].
      assert (2 ^ 52 <= Zpos m) by lia.
      pose proof (pow2_le (ey - E' + 1) (e - E') ltac:(lia)) as Hp.
      rewrite pow2_succ in Hp by lia.
      pose proof (pow2_pos (ey - E') ltac:(lia)).
      change (2 ^ 53) with (2 * 2 ^ 52) in Hmy. nia. }
    rewrite (proj2 (Z.leb_le e 971) He971) in Hr. rewrite Hr.
    cbn [valid valid_binary is_finite ulps cond_Zopp]. repeat split.
    + unfold bounded. rewrite Hc. apply Z.leb_le. change (emax - prec) with 971. lia.
    + right. eauto.
    + assert (2 ^ (e + 1074) = 2 ^ (e - E') * 2 ^ (E' + 1074)) as ->
        by (rewrite <- Z.pow_add_r by lia; f_equal; lia).
      assert (2 ^ (ey + 1074) = 2 ^ (ey - E') * 2 ^ (E' + 1074)) as ->
        by (rewrite <- Z.pow_add_r by lia; f_equal; lia).
      pose proof (pow2_pos (E' + 1074) ltac:(lia)).
      rewrite <- Hme in HR. rewrite !Z.mul_assoc.
      apply Z.mul_le_mono_nonneg_r; [lia | exact HR].
Qed.

Lemma ulps_one : ulps one = 2 ^ 1074.
Proof. reflexivity. Qed.

(** A positive Number that is at most 1 has exponent at most -52 and a
    mantissa below the matching power of two. *)
Lemma le_one_inv (m : positive) (e : Z) :
  bounded prec emax m e = true ->
  Zpos m * 2 ^ (e + 1074) <= 2 ^ 1074 ->
  e <= -52 /\ Zpos m <= 2 ^ (- e).
Proof.
  intros (He & Hm & Hn)%bounded_inv H.
  assert (e <= -52) as He52.
  { destruct (Z_le_gt_dec e (-52)) as [|Hgt]; [assumption|exfalso].
    assert (2 ^ 52 <= Zpos m) by lia.
    pose proof (pow2_lt 1074 (52 + (e + 1074)) ltac:(lia)) as Hp.
    rewrite Z.pow_add_r in Hp by lia.
    pose proof (pow2_pos (e + 1074) ltac:(lia)). nia. }
  split; [assumption|].
  assert (2 ^ 1074 = 2 ^ (- e) * 2 ^ (e + 1074)) as Hs
    by (rewrite <- Z.pow_add_r by lia; f_equal; lia).
  rewrite Hs in H.
  apply Z.mul_le_mono_pos_r in H; [assumption | apply pow2_pos; lia].
Qed.

(** ** Multiplying by a Number in (0, 1] does not increase *)
Lemma mul_le_right (mq mt : positive) (eq et : Z) :
  bounded prec emax mq eq = true -> bounded prec emax mt et = true ->
  Zpos mq * 2 ^ (eq + 1074) <= 2 ^ 1074 ->
  let r := mul (S754_finite false mq eq) (S754_finite false mt et) in
  valid r = true /\ is_finite r = true /\
  (r = pos_zero \/ exists m e, r = S754_finite false m e) /\
  ulps r <= Zpos mt * 2 ^ (et + 1074).
Proof.
  intros Hq Ht Hle.
  destruct (le_one_inv _ _ Hq Hle) as [Heq Hmq].
  destruct (bounded_inv _ _ Ht) as (Het & Hmt & Hnt).
  destruct (bounded_inv _ _ Hq) as (Heq' & _ & _).
  unfold mul, SFmul. cbn [xorb].
  apply round_le_bound with (N := Zpos (mq * mt)) (D := 1).
  - lia.
  - lia.
  - cbn [located]. lia.
  - rewrite fexp_eq.
    destruct Hnt as [-> | Hn]; [lia|].
    assert (53 <= Zdigits2 (Zpos (mq * mt))).
    { apply Zdigits2_ge; [|lia]. change (53 - 1) with 52.
      rewrite Pos2Z.inj_mul. nia. }
    lia.
  - assumption.
  - lia.
  - replace (et - (eq + et)) with (- eq) by lia.
    rewrite Pos2Z.inj_mul. nia.
Qed.

(** ** Dividing by a Number that is not smaller gives at most 1 *)

Lemma new_location_located (D q r : Z) :
  0 < D -> 0 <= r < D -> located (q * D + r) D q (new_location D r).
Proof.
  intros HD Hr. unfold new_location, new_location_even, new_location_odd.
  destruct (Z.even D) eqn:Hev; destruct (Z.eqb_spec r 0) as [-> | Hr0];
    cbn [located]; try lia.
  - split; [lia|].
    replace (2 * (q * D + r)) with (2 * q * D + 2 * r) by ring.
    replace ((2 * q + 1) * D) with (2 * q * D + D) by ring.
    rewrite Z.add_compare_mono_l. reflexivity.
  - split; [lia|].
    assert (Z.odd D = true) as Hodd by (rewrite <- Z.negb_even, Hev; reflexivity).
    apply Z.odd_spec in Hodd as [k Hk].
    destruct (Z.compare_spec (2 * r + 1) D); cmp; lia.
Qed.

(** The quotient and remainder [SFdiv] starts from: the floor of
    [mx * 2^s / my] with its location, at an exponent [e'] that leaves
    the quotient enough digits to be rounded. *)
Lemma div_core_spec (mx my : positive) (ex ey : Z) :
  bounded prec emax mx ex = true -> bounded prec emax my ey = true ->
  exists q e' l,
    SFdiv_core_binary prec emax (Zpos mx) ex (Zpos my) ey = (q, e', l) /\
    0 <= q /\ 0 <= ex - ey - e' /\
    located (Zpos mx * 2 ^ (ex - ey - e')) (Zpos my) q l /\
    e' <= fexp prec emax (Zdigits2 q + e') /\
    e' = Z.min (Z.max (Zpos (digits2_pos mx) + ex - (Zpos (digits2_pos my) + ey) - 53)
                      (-1074)) (ex - ey).
Proof.
  intros Hx Hy.
  destruct (bounded_inv _ _ Hx) as (Hex & Hmx & Hnx).
  destruct (bounded_inv _ _ Hy) as (Hey & Hmy & Hny).
  pose proof (digits2_pos_bounds mx) as [Hdx1 Hdx2].
  pose proof (digits2_pos_bounds my) as [Hdy1 Hdy2].
  unfold SFdiv_core_binary. cbn [Zdigits2].
  set (d1 := Zpos (digits2_pos mx)) in *. set (d2 := Zpos (digits2_pos my)) in *.
  assert (1 <= d1 /\ 1 <= d2) as [Hd1 Hd2] by (unfold d1, d2; lia).
  clearbody d1 d2.
  set (e' := Z.min (fexp prec emax (d1 + ex - (d2 + ey))) (ex - ey)).
  assert (e' = Z.min (Z.max (d1 + ex - (d2 + ey) - 53) (-1074)) (ex - ey)) as He'def
    by (subst e'; rewrite fexp_eq; reflexivity).
  clearbody e'.
  set (s := ex - ey - e').
  assert (s = ex - ey - e') as Hsdef by reflexivity.
  clearbody s.
  assert (0 <= s) as Hs by lia.
  set (m' := match s with
             | 0 => Zpos mx
             | Zpos _ => Z.shiftl (Zpos mx) s
             | Zneg _ => 0
             end).
  assert (m' = Zpos mx * 2 ^ s) as Hm'.
  { subst m'. destruct s as [|p|p] eqn:Es; try lia.
    apply Z.shiftl_mul_pow2. lia. }
  clearbody m'.
  pose proof (Z_div_mod m' (Zpos my) ltac:(lia)) as Hdiv.
  destruct (Z.div_eucl m' (Zpos my)) as [q r]. destruct Hdiv as [Hqr Hr].
  pose proof (pow2_pos s Hs) as Hps.
  assert (0 <= q) as Hq by nia.
  exists q, e', (new_location (Zpos my) r).
  split; [reflexivity|]. split; [assumption|]. split; [lia|]. split; [|split].
  - rewrite <- Hsdef, <- Hm'. replace m' with (q * Zpos my + r) by lia.
    apply new_location_located; lia.
  - assert (d1 - d2 + s <= Zdigits2 q) as Hdq.
    { destruct (Z_le_gt_dec (d1 - d2 + s) 0) as [|Hpos];
        [pose proof (Zdigits2_nonneg q); lia|].
      apply Zdigits2_ge; [|lia].
      assert (2 ^ (d1 - d2 + s - 1) * Zpos my <= m') as Hlow.
      { rewrite Hm'.
        assert (2 ^ (d1 - 1) * 2 ^ s = 2 ^ (d1 - d2 + s - 1) * 2 ^ d2) as Hsp
          by (rewrite <- !Z.pow_add_r by lia; f_equal; lia).
        pose proof (pow2_pos (d1 - d2 + s - 1) ltac:(lia)). nia. }
      pose proof (pow2_pos (d1 - d2 + s - 1) ltac:(lia)). nia. }
    rewrite fexp_eq. lia.
  - assumption.
Qed.

Lemma div_le_one (mx my : positive) (ex ey : Z) :
  bounded prec emax mx ex = true -> bounded prec emax my ey = true ->
  Zpos mx * 2 ^ (ex + 1074) <= Zpos my * 2 ^ (ey + 1074) ->
  let r := div (S754_finite false mx ex) (S754_finite false my ey) in
  valid r = true /\ is_finite r = true /\
  (r = pos_zero \/ exists m e, r = S754_finite false m e) /\
  ulps r <= 2 ^ 1074.
Proof.
  intros Hx Hy Hle.
  destruct (bounded_inv _ _ Hx) as (Hex & Hmx & Hnx).
  destruct (bounded_inv _ _ Hy) as (Hey & Hmy & Hny).
  pose proof (digits2_pos_bounds mx) as [Hdx1 Hdx2].
  pose proof (digits2_pos_bounds my) as [Hdy1 Hdy2].
  destruct (div_core_spec mx my ex ey Hx Hy)
    as (q & e' & l & Hcore & Hq & Hs & Hloc & Hdig & He'def).
  unfold div, SFdiv. cbn [xorb]. rewrite Hcore.
  set (d1 := Zpos (digits2_pos mx)) in *. set (d2 := Zpos (digits2_pos my)) in *.
  assert (1 <= d1 /\ 1 <= d2) as [Hd1 Hd2] by (unfold d1, d2; lia).
  clearbody d1 d2.
  (* the magnitude of the quotient is not positive *)
  assert (d1 + ex - (d2 + ey) <= 0) as Hdelta.
  { destruct (Z_le_gt_dec (d1 + ex) (d2 + ey)) as [|Hgt]; [lia|exfalso].
    pose proof (pow2_le (d2 + (ey + 1074)) (d1 - 1 + (ex + 1074)) ltac:(lia)) as Hp.
    rewrite (Z.pow_add_r 2 d2), (Z.pow_add_r 2 (d1 - 1)) in Hp by lia.
    pose proof (pow2_pos (ex + 1074) ltac:(lia)).
    pose proof (pow2_pos (ey + 1074) ltac:(lia)).
    assert (2 ^ (d1 - 1) * 2 ^ (ex + 1074) <= Zpos mx * 2 ^ (ex + 1074))
      by (apply Z.mul_le_mono_nonneg_r; lia).
    assert (Zpos my * 2 ^ (ey + 1074) < 2 ^ d2 * 2 ^ (ey + 1074))
      by (apply Z.mul_lt_mono_pos_r; lia).
    lia. }
  assert (e' <= -53) as He' by lia.
  set (s := ex - ey - e') in *.
  assert (s = ex - ey - e') as Hsdef by reflexivity.
  clearbody s.
  apply round_le_bound with (N := Zpos mx * 2 ^ s) (D := Zpos my)
                            (my := 4503599627370496%positive) (ey := -52);
    try assumption; try reflexivity; try lia.
  (* the quotient is at most 1 *)
  assert (2 ^ 52 * 2 ^ (-52 - e') = 2 ^ (- e')) as Hone
    by (rewrite <- Z.pow_add_r by lia; f_equal; lia).
  change (Zpos 4503599627370496) with (2 ^ 52). rewrite Hone.
  assert (2 ^ s * 2 ^ (ey + 1074) = 2 ^ (- e') * 2 ^ (ex + 1074)) as Hsp
    by (rewrite <- !Z.pow_add_r by lia; f_equal; lia).
  pose proof (pow2_pos (ey + 1074) ltac:(lia)).
  pose proof (pow2_pos (ex + 1074) ltac:(lia)).
  pose proof (pow2_pos (- e') ltac:(lia)).
  assert (Zpos mx * 2 ^ s * 2 ^ (ey + 1074) <= 2 ^ (- e') * Zpos my * 2 ^ (ey + 1074)) as H3 by nia.
  apply Z.mul_le_mono_pos_r in H3; [lia | assumption].
Qed.

(** ** The operations stay within the Numbers *)

Lemma round_valid (s : bool) (N D M E : Z) (l : location) :
  0 <= M -> 0 < D -> located N D M l ->
  E <= fexp prec emax (Zdigits2 M + E) ->
  valid (binary_round_aux prec emax s M E l) = true.
Proof.
  intros HM HD Hloc HE.
  destruct (binary_round_aux_spec s N D M E l HM HD Hloc HE)
    as (R & _ & _ & [[_ ->] | (m & e & _ & _ & Hc & ->)]); [reflexivity|].
  destruct (Z.leb_spec e 971); [|reflexivity].
  cbn [valid valid_binary]. unfold bounded. rewrite Hc. apply Z.leb_le.
  change (emax - prec) with 971. assumption.
Qed.

Lemma mul_valid (x y : number) :
  valid x = true -> valid y = true -> valid (mul x y) = true.
Proof.
  destruct x as [sx|sx| |sx mx ex], y as [sy|sy| |sy my ey]; try reflexivity.
  cbn [valid valid_binary]. intros Hx Hy.
  destruct (bounded_inv _ _ Hx) as (Hex & Hmx & Hnx).
  destruct (bounded_inv _ _ Hy) as (Hey & Hmy & Hny).
  unfold mul, SFmul.
  apply round_valid with (N := Zpos (mx * my)) (D := 1); try lia.
  - cbn [located]. lia.
  - rewrite fexp_eq.
    destruct Hnx as [-> | Hnx], Hny as [-> | Hny]; try lia.
    all: assert (53 <= Zdigits2 (Zpos (mx * my)))
      by (apply Zdigits2_ge; [|lia]; change (53 - 1) with 52;
          rewrite Pos2Z.inj_mul; nia); lia.
Qed.

Lemma div_valid (x y : number) :
  valid x = true -> valid y = true -> valid (div x y) = true.
Proof.
  destruct x as [sx|sx| |sx mx ex], y as [sy|sy| |sy my ey]; try reflexivity.
  cbn [valid valid_binary]. intros Hx Hy.
  destruct (div_core_spec mx my ex ey Hx Hy)
    as (q & e' & l & Hcore & Hq & Hs & Hloc & Hdig & _).
  unfold div, SFdiv. rewrite Hcore.
  apply round_valid with (N := Zpos mx * 2 ^ (ex - ey - e')) (D := Zpos my);
    try assumption; lia.
Qed.

(** ** Integers below 2^53 are Numbers *)

Lemma binary_round_aux_canonical (s : bool) (m : positive) (e : Z) :
  canonical_mantissa prec emax m e = true ->
  binary_round_aux prec emax s (Zpos m) e loc_Exact =
    if e <=? 971 then S754_finite s m e else S754_infinity s.
Proof.
  intros Hc. unfold canonical_mantissa in Hc. apply Z.eqb_eq in Hc.
  unfold binary_round_aux.
  rewrite (shr_fexp_fixed (Zpos m) e Hc). cbn [shr_m loc_of_shr_record round_nearest_even].
  rewrite (shr_fexp_fixed (Zpos m) e Hc). reflexivity.
Qed.

Lemma Pos_iter_xO (m k : positive) : Zpos (Pos.iter xO m k) = Zpos m * 2 ^ Zpos k.
Proof.
  induction k as [|k IH] using Pos.peano_ind.
  - cbn. lia.
  - rewrite Pos.iter_succ, Pos2Z.inj_xO, IH, Pos2Z.inj_succ.
    unfold Z.succ. rewrite pow2_succ by lia. ring.
Qed.

Lemma binary_round_small (s : bool) (m : positive) :
  Zpos m < 2 ^ 53 ->
  let r := binary_round prec emax s m 0 in
  valid r = true /\ ulps r = cond_Zopp s (Zpos m * 2 ^ 1074) /\
  exists m' e', r = S754_finite s m' e'.
Proof.
  intros Hm. pose proof (digits2_pos_bounds m) as [Hd1 Hd2].
  assert (Zpos (digits2_pos m) <= 53) as Hd
    by (apply (Zdigits2_le (Zpos m) 53); lia).
  unfold binary_round. rewrite Z.add_0_r, fexp_eq.
  replace (Z.max (Zpos (digits2_pos m) - 53) (-1074)) with (Zpos (digits2_pos m) - 53) by lia.
  unfold shl_align. rewrite Z.sub_0_r.
  destruct (Zpos (digits2_pos m) - 53) as [|k|k] eqn:Hk; try lia.
  - assert (canonical_mantissa prec emax m 0 = true) as Hc
      by (unfold canonical_mantissa; rewrite fexp_eq; apply Z.eqb_eq; lia).
    rewrite (binary_round_aux_canonical s m 0 Hc). cbn [Z.leb Z.compare].
    cbn [valid valid_binary ulps]. unfold bounded. rewrite Hc.
    repeat split; eauto.
  - pose proof (Pos_iter_xO m k) as Hz.
    set (mz := Pos.iter xO m k) in *.
    assert (Zpos (digits2_pos m) + Zpos k = 53) as Hdk by lia.
    assert (2 ^ 52 <= Zpos mz < 2 ^ 53) as Hmz.
    { rewrite Hz.
      assert (2 ^ 53 = 2 ^ Zpos (digits2_pos m) * 2 ^ Zpos k) as ->
        by (rewrite <- Z.pow_add_r by lia; f_equal; lia).
      assert (2 ^ 52 = 2 ^ (Zpos (digits2_pos m) - 1) * 2 ^ Zpos k) as ->
        by (rewrite <- Z.pow_add_r by lia; f_equal; lia).
      pose proof (pow2_pos (Zpos k) ltac:(lia)). nia. }
    pose proof (Zdigits2_eq (Zpos mz) 53 Hmz ltac:(lia)) as Hdz. cbn [Zdigits2] in Hdz.
    assert (canonical_mantissa prec emax mz (Zneg k) = true) as Hc
      by (unfold canonical_mantissa; rewrite fexp_eq; apply Z.eqb_eq; lia).
    rewrite (binary_round_aux_canonical s mz _ Hc).
    replace (Zneg k <=? 971) with true by (symmetry; apply Z.leb_le; lia).
    cbn [valid valid_binary ulps]. unfold bounded. rewrite Hc.
    repeat split; eauto.
    f_equal. rewrite Hz, <- Z.mul_assoc, <- Z.pow_add_r by lia.
    do 2 f_equal. lia.
Qed.

Lemma of_Z_small (z : Z) :
  Z.abs z < 2 ^ 53 ->
  valid (of_Z z) = true /\ is_finite (of_Z z) = true /\
  ulps (of_Z z) = z * 2 ^ 1074.
Proof.
  intros Hz. unfold of_Z, binary_normalize.
  destruct z as [|m|m].
  - repeat split.
  - destruct (binary_round_small false m ltac:(lia)) as (Hv & Hu & m' & e' & Hr).
    rewrite Hv, Hu, Hr. repeat split.
  - destruct (binary_round_small true m ltac:(lia)) as (Hv & Hu & m' & e' & Hr).
    rewrite Hv, Hu, Hr. cbn [cond_Zopp]. repeat split.
Qed.

(** ** [Math.floor] and [Number.isInteger] *)

Lemma cond_Zopp_mul (s : bool) (a b : Z) : cond_Zopp s (a * b) = cond_Zopp s a * b.
Proof. destruct s; cbn; lia. Qed.

Lemma Math_floor_ulps (x : number) :
  valid x = true -> is_finite x = true ->
  valid (Math_floor x) = true /\ is_finite (Math_floor x) = true /\
  ulps (Math_floor x) = ulps x / 2 ^ 1074 * 2 ^ 1074.
Proof.
  destruct x as [s| | |s m e]; try discriminate; intros Hv _.
  - repeat split.
  - cbn [Math_floor]. cbn [valid valid_binary] in Hv.
    destruct (bounded_inv _ _ Hv) as (He & Hm & _).
    destruct (Z.leb_spec 0 e) as [Hpos | Hneg].
    + repeat split; [exact Hv|]. cbn [ulps].
      rewrite Z.pow_add_r, Z.mul_assoc, cond_Zopp_mul by lia.
      rewrite Z.div_mul by lia. reflexivity.
    + set (z := cond_Zopp s (Zpos m) / 2 ^ (- e)).
      pose proof (pow2_pos (- e) ltac:(lia)) as Hp.
      assert (2 <= 2 ^ (- e)) as Hp2
        by (change 2 with (2 ^ 1) at 1; apply pow2_le; lia).
      assert (Z.abs z <= Zpos m) as Hz.
      { subst z. destruct s; cbn [cond_Zopp].
        - pose proof (Z.div_le_lower_bound (- Zpos m) (2 ^ (- e)) (- Zpos m) Hp ltac:(nia)).
          pose proof (Z.div_lt_upper_bound (- Zpos m) (2 ^ (- e)) 0 Hp ltac:(lia)).
          lia.
        - pose proof (Z.div_pos (Zpos m) (2 ^ (- e)) ltac:(lia) Hp).
          pose proof (Z.div_le_upper_bound (Zpos m) (2 ^ (- e)) (Zpos m) Hp ltac:(nia)).
          lia. }
      destruct (of_Z_small z ltac:(lia)) as (Hv' & Hf' & Hu').
      split; [exact Hv'|]. split; [exact Hf'|]. rewrite Hu'. f_equal.
      cbn [ulps]. subst z. rewrite cond_Zopp_mul.
      assert (2 ^ 1074 = 2 ^ (- e) * 2 ^ (e + 1074)) as ->
        by (rewrite <- Z.pow_add_r by lia; f_equal; lia).
      rewrite Z.div_mul_cancel_r; [reflexivity | lia |].
      pose proof (pow2_pos (e + 1074) ltac:(lia)). lia.
Qed.

Lemma isInteger_of_ulps (x : number) :
  valid x = true -> is_finite x = true ->
  ulps x mod 2 ^ 1074 = 0 -> isInteger x = true.
Proof.
  destruct x as [s| | |s m e]; try discriminate; intros Hv _ Hmod.
  - reflexivity.
  - cbn [isInteger]. cbn [valid valid_binary] in Hv.
    destruct (bounded_inv _ _ Hv) as (He & Hm & _).
    destruct (Z.leb_spec 0 e) as [Hpos | Hneg]; [reflexivity|].
    apply Z.eqb_eq. cbn [ulps] in Hmod.
    pose proof (pow2_pos (- e) ltac:(lia)) as Hp.
    pose proof (pow2_pos (e + 1074) ltac:(lia)) as Hp'.
    assert (2 ^ 1074 = 2 ^ (- e) * 2 ^ (e + 1074)) as Hs
      by (rewrite <- Z.pow_add_r by lia; f_equal; lia).
    rewrite Hs in Hmod.
    assert ((Zpos m * 2 ^ (e + 1074)) mod (2 ^ (- e) * 2 ^ (e + 1074)) = 0) as H0.
    { destruct s; cbn [cond_Zopp] in Hmod; [|exact Hmod].
      apply Z.mod_opp_l_z in Hmod; [|lia]. rewrite Z.opp_involutive in Hmod.
      exact Hmod. }
    rewrite Z.mul_mod_distr_r in H0 by lia. nia.
Qed.

Lemma isInteger_floor (x : number) :
  valid x = true -> is_finite x = true -> isInteger (Math_floor x) = true.
Proof.
  intros Hv Hf. destruct (Math_floor_ulps x Hv Hf) as (Hv' & Hf' & Hu).
  apply isInteger_of_ulps; try assumption.
  rewrite Hu. apply Z.mod_mul. pose proof (pow2_pos 1074 ltac:(lia)). lia.
Qed.

Lemma floor_of_Math_floor (y : number) :
  valid y = true -> is_finite y = true -> floor_of (Math_floor y) y.
Proof.
  intros Hv Hf. destruct (Math_floor_ulps y Hv Hf) as (_ & _ & Hu).
  split; [apply isInteger_floor; assumption|]. rewrite Hu.
  pose proof (pow2_pos 1074 ltac:(lia)) as Hp.
  pose proof (Z.div_mod (ulps y) (2 ^ 1074) ltac:(lia)).
  pose proof (Z.mod_pos_bound (ulps y) (2 ^ 1074) Hp). lia.
Qed.

(** ** [Math.round] *)

Lemma Math_round_ulps (y : number) :
  valid y = true -> is_finite y = true ->
  valid (Math_round y) = true /\ is_finite (Math_round y) = true /\
  ulps (Math_round y) = (2 * ulps y + 2 ^ 1074) / 2 ^ 1075 * 2 ^ 1074.
Proof.
  pose proof (pow2_pos 1074 ltac:(lia)) as HU.
  assert (2 ^ 1075 = 2 * 2 ^ 1074) as H1075 by (apply (pow2_succ 1074); lia).
  destruct y as [s| | |s m e]; try discriminate; intros Hv _.
  - repeat split.
  - cbn [Math_round]. cbn [valid valid_binary] in Hv.
    destruct (bounded_inv _ _ Hv) as (He & Hm & _).
    destruct (Z.leb_spec 0 e) as [Hpos | Hneg].
    + repeat split; [exact Hv|]. cbn [ulps].
      rewrite Z.pow_add_r, Z.mul_assoc, cond_Zopp_mul by lia.
      set (c := cond_Zopp s (Zpos m * 2 ^ e)). rewrite H1075.
      replace (2 * (c * 2 ^ 1074) + 2 ^ 1074) with ((2 * c + 1) * 2 ^ 1074) by ring.
      rewrite Z.div_mul_cancel_r by lia.
      f_equal. apply Z.div_unique with (r := 1); lia.
    + set (k := - e) in *.
      pose proof (pow2_pos k ltac:(lia)) as Hp.
      assert (2 <= 2 ^ k) as Hp2
        by (change 2 with (2 ^ 1) at 1; apply pow2_le; lia).
      rewrite (pow2_succ k) by lia.
      set (z := (2 * cond_Zopp s (Zpos m) + 2 ^ k) / (2 * 2 ^ k)).
      assert (Z.abs z <= Zpos m) as Hz.
      { subst z. destruct s; cbn [cond_Zopp].
        - pose proof (Z.div_le_lower_bound (2 * - Zpos m + 2 ^ k) (2 * 2 ^ k) (- Zpos m)
                        ltac:(lia) ltac:(nia)).
          pose proof (Z.div_lt_upper_bound (2 * - Zpos m + 2 ^ k) (2 * 2 ^ k) 1
                        ltac:(lia) ltac:(lia)).
          lia.
        - pose proof (Z.div_pos (2 * Zpos m + 2 ^ k) (2 * 2 ^ k) ltac:(lia) ltac:(lia)).
          pose proof (Z.div_le_upper_bound (2 * Zpos m + 2 ^ k) (2 * 2 ^ k) (Zpos m)
                        ltac:(lia) ltac:(nia)).
          lia. }
      assert ((2 * ulps (S754_finite s m e) + 2 ^ 1074) / 2 ^ 1075 = z) as Hq.
      { cbn [ulps]. subst z. rewrite cond_Zopp_mul, H1075.
        assert (2 ^ 1074 = 2 ^ k * 2 ^ (e + 1074)) as ->
          by (rewrite <- Z.pow_add_r by lia; f_equal; lia).
        pose proof (pow2_pos (e + 1074) ltac:(lia)).
        replace (2 * (cond_Zopp s (Zpos m) * 2 ^ (e + 1074)) + 2 ^ k * 2 ^ (e + 1074))
          with ((2 * cond_Zopp s (Zpos m) + 2 ^ k) * 2 ^ (e + 1074)) by ring.
        rewrite Z.mul_assoc. apply Z.div_mul_cancel_r; lia. }
      rewrite Hq.
      destruct (Z.eqb_spec z 0) as [-> | Hz0].
      * repeat split.
      * destruct (of_Z_small z ltac:(lia)) as (Hv' & Hf' & Hu').
        repeat split; assumption.
Qed.

Lemma nearest_integer_Math_round (y : number) :
  valid y = true -> is_finite y = true -> nearest_integer (Math_round y) y.
Proof.
  intros Hv Hf. destruct (Math_round_ulps y Hv Hf) as (Hv' & Hf' & Hu).
  pose proof (pow2_pos 1074 ltac:(lia)) as HU.
  assert (2 ^ 1075 = 2 * 2 ^ 1074) as H1075 by (apply (pow2_succ 1074); lia).
  split.
  - apply isInteger_of_ulps; try assumption. rewrite Hu. apply Z.mod_mul. lia.
  - rewrite Hu.
    pose proof (Z.div_mod (2 * ulps y + 2 ^ 1074) (2 ^ 1075) ltac:(lia)).
    pose proof (Z.mod_pos_bound (2 * ulps y + 2 ^ 1074) (2 ^ 1075) ltac:(lia)).
    lia.
Qed.

(** ** Clamping to [0, 100] *)

Lemma clamp_eq (p : number) :
  is_nan p = false ->
  Math_max n0 (Math_min n100 p) =
    let c1 := if lt p n100 then p else n100 in
    if lt n0 c1 then c1 else n0.
Proof.
  intros Hp. unfold Math_max, Math_min.
  destruct p as [[|]|[|]| |s m e]; try discriminate; try reflexivity.
  assert (min_step pos_infinity n100 = n100) as -> by reflexivity.
  assert (max_step neg_infinity n0 = n0) as -> by reflexivity.
  cbn [is_nan orb min_step]. cbv zeta.
  destruct (lt (S754_finite s m e) n100) eqn:Hlt; reflexivity.
Qed.

Lemma clamp_cases (p : number) :
  valid p = true -> is_nan p = false ->
  let c := Math_max n0 (Math_min n100 p) in
  c = pos_zero \/
  exists m e, c = S754_finite false m e /\ bounded prec emax m e = true /\
              Zpos m * 2 ^ (e + 1074) <= ulps n100.
Proof.
  intros Hv Hn. cbv zeta. rewrite (clamp_eq p Hn). cbv zeta.
  destruct (lt p n100) eqn:Hlt.
  - destruct (lt n0 p) eqn:Hpos; [|left; reflexivity].
    right. destruct p as [[|]|[|]| |[|] m e]; try discriminate.
    exists m, e. split; [reflexivity|]. split; [exact Hv|].
    apply (lt_ulps (S754_finite false m e) n100) in Hlt; try reflexivity; try assumption.
    change (ulps (S754_finite false m e)) with (Zpos m * 2 ^ (e + 1074)) in Hlt. lia.
  - right. exists 7036874417766400%positive, (-46).
    repeat split. change (ulps n100) with (7036874417766400 * 2 ^ (-46 + 1074)). lia.
Qed.

(** ** The guard on [totalWords] *)
Lemma no_words_false (t : arg) :
  no_words t = false -> exists x, t = Num x /\ lt n0 x = true.
Proof.
  destruct t as [| |x]; try discriminate.
  destruct x as [[|]|[|]| |[|] m e]; try discriminate; intros _;
    eexists; split; reflexivity.
Qed.

(** ** The word index lies between 0 and the number of words *)

Lemma floor_range (r x : number) :
  valid r = true -> is_finite r = true -> 0 <= ulps r ->
  valid x = true -> is_finite x = true -> ulps r <= ulps x ->
  integer_in_range (Math_floor r) x.
Proof.
  intros Hv Hf H0 Hvx Hfx Hle. unfold integer_in_range.
  destruct (Math_floor_ulps r Hv Hf) as (Hv' & Hf' & Hu).
  pose proof (pow2_pos 1074 ltac:(lia)) as Hp.
  pose proof (Z.div_pos (ulps r) (2 ^ 1074) H0 Hp).
  pose proof (Z.mul_div_le (ulps r) (2 ^ 1074) Hp).
  split; [apply isInteger_floor; assumption|]. split.
  - apply le_ulps; try assumption; try reflexivity.
    rewrite Hu. change (ulps n0) with 0. nia.
  - apply le_ulps; try assumption. rewrite Hu. lia.
Qed.

Lemma share_range (p x : number) :
  valid p = true -> is_nan p = false ->
  valid x = true -> is_finite x = true -> lt n0 x = true ->
  valid (share p x) = true /\ is_finite (share p x) = true /\
  0 <= ulps (share p x) <= ulps x.
Proof.
  intros Hvp Hnp Hvx Hfx Hpos. unfold share.
  destruct x as [[|]|[|]| |[|] mt et]; try discriminate.
  cbn [valid valid_binary] in Hvx.
  destruct (bounded_inv _ _ Hvx) as (Het & _ & _).
  pose proof (ulps_pos mt et ltac:(lia)) as Hxpos.
  destruct (clamp_cases p Hvp Hnp) as [Hc | (mc & ec & Hc & Hbc & Hlec)];
    cbv zeta in Hc; rewrite Hc.
  - assert (mul (div pos_zero n100) (S754_finite false mt et) = pos_zero) as ->
      by reflexivity.
    repeat split; cbn [ulps pos_zero cond_Zopp]; lia.
  - change n100 with (S754_finite false 7036874417766400 (-46)).
    destruct (div_le_one mc 7036874417766400 ec (-46) Hbc ltac:(reflexivity) Hlec)
      as (Hvq & Hfq & [Hq | (mq & eq & Hq)] & Hleq); cbv zeta in *; rewrite Hq in *.
    + assert (mul pos_zero (S754_finite false mt et) = pos_zero) as -> by reflexivity.
      repeat split; cbn [ulps pos_zero cond_Zopp]; lia.
    + cbn [valid valid_binary] in Hvq. cbn [ulps cond_Zopp] in Hleq.
      destruct (mul_le_right mq mt eq et Hvq Hvx Hleq)
        as (Hvr & Hfr & Hshape & Hler); cbv zeta in *.
      split; [assumption|]. split; [assumption|]. split; [|exact Hler].
      destruct Hshape as [-> | (m & e & Hr)]; [cbn; lia|].
      rewrite Hr in Hvr |- *. cbn [valid valid_binary] in Hvr.
      destruct (bounded_inv _ _ Hvr) as (? & _ & _).
      pose proof (ulps_pos m e ltac:(lia)). cbn [ulps cond_Zopp]. lia.
Qed.

Lemma percentage_range (p x : number) :
  valid p = true -> is_nan p = false ->
  valid x = true -> is_finite x = true -> lt n0 x = true ->
  integer_in_range (Math_floor (share p x)) x /\
  floor_of (Math_floor (share p x)) (share p x).
Proof.
  intros Hvp Hnp Hvx Hfx Hpos.
  destruct (share_range p x Hvp Hnp Hvx Hfx Hpos) as (Hv & Hf & H0 & Hle).
  split.
  - apply floor_range; assumption.
  - apply floor_of_Math_floor; assumption.
Qed.

(** ** One hundred percent *)

Lemma canonical_unique (m1 m2 : positive) (e1 e2 : Z) :
  canonical_mantissa prec emax m1 e1 = true ->
  canonical_mantissa prec emax m2 e2 = true ->
  Zpos m1 * 2 ^ (e1 + 1074) = Zpos m2 * 2 ^ (e2 + 1074) ->
  m1 = m2 /\ e1 = e2.
Proof.
  intros H1 H2 Heq. pose proof (compare_canonical m1 m2 e1 e2 H1 H2) as Hc.
  rewrite (proj2 (Z.compare_eq_iff _ _) Heq) in Hc.
  destruct (Z.compare_spec e1 e2) as [-> | |]; try discriminate.
  split; [|reflexivity]. apply Pos.compare_eq. exact Hc.
Qed.

Lemma mul_one_l (s : bool) (m : positive) (e : Z) :
  bounded prec emax m e = true ->
  mul one (S754_finite s m e) = S754_finite s m e.
Proof.
  intros Hb. pose proof Hb as Hb'. unfold bounded in Hb'.
  apply andb_true_iff in Hb' as [Hc He971]. apply Z.leb_le in He971.
  change (emax - prec) with 971 in He971.
  destruct (canonical_inv _ _ Hc) as (He & Hm & Hn).
  pose proof (digits2_pos_bounds m) as [Hd1 Hd2].
  unfold mul, SFmul, one. cbn [xorb].
  set (N := Zpos (4503599627370496 * m)).
  assert (N = 2 ^ 52 * Zpos m) as HN by (subst N; rewrite Pos2Z.inj_mul; reflexivity).
  assert (Zdigits2 N = 52 + Zpos (digits2_pos m)) as HdN.
  { apply Zdigits2_eq; [|lia]. rewrite HN.
    assert (2 ^ (52 + Zpos (digits2_pos m) - 1) = 2 ^ 52 * 2 ^ (Zpos (digits2_pos m) - 1)) as ->
      by (rewrite <- Z.pow_add_r by lia; f_equal; lia).
    rewrite Z.pow_add_r by lia. lia. }
  assert (fexp prec emax (Zdigits2 N + (-52 + e)) = e) as HE'.
  { rewrite HdN. replace (52 + Zpos (digits2_pos m) + (-52 + e))
      with (Zpos (digits2_pos m) + e) by lia.
    apply Z.eqb_eq. exact Hc. }
  destruct (binary_round_aux_spec s N 1 N (-52 + e) loc_Exact)
    as (R & HU & HL & Hshape); try lia.
  { cbn [located]. lia. }
  rewrite HE' in HU, HL, Hshape.
  replace (e - (-52 + e)) with 52 in HU, HL by lia.
  assert (R = Zpos m) as HR.
  { pose proof (HU (Zpos m) ltac:(lia)). pose proof (HL (Zpos m) ltac:(lia)). lia. }
  destruct Hshape as [[HR0 _] | (m' & e' & Hme & Hee & Hc' & Hr)]; [lia|].
  rewrite Hr.
  destruct (canonical_inv _ _ Hc') as (He' & Hm' & Hn').
  assert (e' = e) as ->.
  { destruct (Z.eq_dec e' e) as [|Hne]; [assumption|exfalso].
    assert (2 ^ 52 <= Zpos m') by lia.
    pose proof (pow2_le 1 (e' - e) ltac:(lia)) as Hp. change (2 ^ 1) with 2 in Hp.
    change (2 ^ 53) with (2 * 2 ^ 52) in Hm. nia. }
  rewrite Z.sub_diag, Z.pow_0_r, Z.mul_1_r in Hme.
  assert (m' = m) as -> by lia.
  rewrite (proj2 (Z.leb_le e 971) He971). reflexivity.
Qed.

Lemma floor_integer (m : positive) (e : Z) :
  bounded prec emax m e = true ->
  isInteger (S754_finite false m e) = true ->
  Math_floor (S754_finite false m e) = S754_finite false m e.
Proof.
  intros Hb Hi. cbn [Math_floor isInteger] in *.
  destruct (Z.leb_spec 0 e) as [|Hneg]; [reflexivity|].
  apply Z.eqb_eq in Hi. cbn [cond_Zopp].
  pose proof Hb as Hb'. unfold bounded in Hb'. apply andb_true_iff in Hb' as [Hc _].
  destruct (bounded_inv _ _ Hb) as (He & Hm & _).
  pose proof (pow2_pos (- e) ltac:(lia)) as Hp.
  pose proof (Z.div_mod (Zpos m) (2 ^ (- e)) ltac:(lia)) as Hdm. rewrite Hi in Hdm.
  set (z := Zpos m / 2 ^ (- e)) in *.
  assert (0 < z <= Zpos m) as Hz by nia.
  unfold of_Z, binary_normalize. destruct z as [|pz|pz] eqn:Ez; try lia.
  destruct (binary_round_small false pz ltac:(lia)) as (Hv & Hu & m' & e' & Hr).
  cbv zeta in *. rewrite Hr in *. cbn [valid valid_binary ulps cond_Zopp] in Hv, Hu.
  unfold bounded in Hv. apply andb_true_iff in Hv as [Hc' _].
  destruct (canonical_unique m' m e' e Hc' Hc) as [-> ->]; [|reflexivity].
  rewrite Hu, Hdm.
  assert (2 ^ 1074 = 2 ^ (- e) * 2 ^ (e + 1074)) as ->
    by (rewrite <- Z.pow_add_r by lia; f_equal; lia).
  ring.
Qed.

Lemma percentage_100 (x : number) :
  valid x = true -> is_finite x = true -> lt n0 x = true -> isInteger x = true ->
  Math_floor (share n100 x) = x.
Proof.
  intros Hv Hf Hpos Hi. unfold share.
  destruct x as [[|]|[|]| |[|] m e]; try discriminate.
  assert (div (Math_max n0 (Math_min n100 n100)) n100 = one) as -> by reflexivity.
  cbn [valid valid_binary] in Hv.
  rewrite (mul_one_l false m e Hv). apply floor_integer; assumption.
Qed.

(** ** Integers keep their order as Numbers *)
Lemma of_Z_le (a b : Z) :
  Z.abs a < 2 ^ 53 -> Z.abs b < 2 ^ 53 -> a <= b -> le (of_Z a) (of_Z b) = true.
Proof.
  intros Ha Hb Hab.
  destruct (of_Z_small a Ha) as (Hva & Hfa & Hua).
  destruct (of_Z_small b Hb) as (Hvb & Hfb & Hub).
  apply le_ulps; try assumption. rewrite Hua, Hub.
  pose proof (pow2_pos 1074 ltac:(lia)). nia.
Qed.

Lemma no_words_positive (t : arg) : lt n0 (ToNumber t) = true -> no_words t = false.
Proof.
  destruct t as [| |x]; try discriminate.
  destruct x as [[|]|[|]| |[|] m e]; try discriminate; reflexivity.
Qed.

End NumberFacts.

Import NumberFacts.

(* ===================================================================== *)
(** * The conversions *)
(* ===================================================================== *)

(** The guard of the source, [!totalWords || totalWords <= 0], holds for
    the absent, zero and negative [totalWords] of the specification and
    for NaN. *)
Lemma no_words_eq (t : arg) :
  no_words t = absent_zero_or_negative t || is_nan (ToNumber t).
Proof.
  destruct t as [| |x]; try reflexivity.
  destruct x as [[|]|[|]| |[|] m e]; reflexivity.
Qed.

(** The examples of the specification (section 8, properties 5 and 6). *)
Example percentageToWordIndex_examples :
  percentageToWordIndex (int 0) (int 1000) = of_Z 0 /\
  percentageToWordIndex (int 50) (int 1000) = of_Z 500 /\
  percentageToWordIndex (int 100) (int 1000) = of_Z 1000 /\
  percentageToWordIndex (int 150) (int 1000) = of_Z 1000 /\
  percentageToWordIndex (int (-10)) (int 1000) = of_Z 0 /\
  percentageToWordIndex (int 50) (int 0) = of_Z 0.
Proof. repeat split; vm_compute; reflexivity. Qed.

Example wordIndexToPercentage_examples :
  wordIndexToPercentage (int 500) (int 1000) = of_Z 50 /\
  wordIndexToPercentage (int 0) (int 1000) = of_Z 0 /\
  wordIndexToPercentage (int 1000) (int 1000) = of_Z 100 /\
  wordIndexToPercentage (int 500) (int 0) = of_Z 0 /\
  wordIndexToPercentage (int 1200) (int 1000) = of_Z 120.
Proof. repeat split; vm_compute; reflexivity. Qed.

(** The arithmetic is that of binary64: 29 percent of 100 words is word
    28, because 29/100 rounds below 0.29 and the product below 29. *)
Example percentageToWordIndex_29_of_100 :
  percentageToWordIndex (int 29) (int 100) = of_Z 28.
Proof. vm_compute. reflexivity. Qed.

(** C2, as stated, fails: a NaN [totalWords] is neither absent, zero nor
    negative, yet the result is 0 and not the floor, which is NaN; a NaN
    percentage gives NaN, which is no integer; an infinite [totalWords]
    gives an infinite result; and 100 percent of 2.5 words is 2. *)
Lemma percentageToWordIndex_not_as_stated :
  ~ stated_percentageToWordIndex (int 50) (Num NaN) /\
  ~ stated_percentageToWordIndex (Num NaN) (int 1000) /\
  ~ stated_percentageToWordIndex (int 50) (Num pos_infinity) /\
  ~ stated_percentageToWordIndex (int 100) (Num (div (of_Z 5) (of_Z 2))).
Proof.
  unfold stated_percentageToWordIndex, integer_in_range.
  repeat split; vm_compute; intros H; decompose [and] H; try discriminate.
  match goal with H : _ -> _ |- _ => specialize (H eq_refl); discriminate end.
Qed.

(** C2, amended.  [percentageToWordIndex(p, t)] is 0 when [t] is absent
    ([undefined], [null]), NaN, zero or negative, and otherwise
    [Math.floor((Math.max(0, Math.min(100, p)) / 100) * t)] in binary64
    arithmetic.  When [p] is not NaN and [t] is a finite positive Number,
    this is an integer in [[0, t]], the greatest not above the product;
    for [p = 100] it is [t] itself when [t] is an integer. *)
Theorem percentageToWordIndex_spec (p t : arg) :
  percentageToWordIndex p t =
    (if absent_zero_or_negative t || is_nan (ToNumber t) then n0
     else floor_of_share p t) /\
  (valid (ToNumber p) = true -> is_nan (ToNumber p) = false ->
   valid (ToNumber t) = true -> is_finite (ToNumber t) = true ->
   lt n0 (ToNumber t) = true ->
   integer_in_range (percentageToWordIndex p t) (ToNumber t) /\
   floor_of (percentageToWordIndex p t) (share (ToNumber p) (ToNumber t)) /\
   (ToNumber p = n100 -> isInteger (ToNumber t) = true ->
    percentageToWordIndex p t = ToNumber t)).
Proof.
  unfold percentageToWordIndex. rewrite <- no_words_eq. split.
  - unfold floor_of_share, share. destruct (no_words t); reflexivity.
  - intros Hvp Hnp Hvt Hft Hpos.
    rewrite (no_words_positive t Hpos).
    destruct (no_words_false t (no_words_positive t Hpos)) as (x & -> & _).
    cbn [ToNumber] in *.
    destruct (percentage_range (ToNumber p) x Hvp Hnp Hvt Hft Hpos) as [Hrange Hfloor].
    split; [exact Hrange|]. split; [exact Hfloor|].
    intros -> Hint. apply percentage_100; assumption.
Qed.

Lemma percentageToWordIndex_spec_witness :
  integer_in_range (percentageToWordIndex (int 50) (int 1000)) (of_Z 1000) /\
  percentageToWordIndex (int 100) (int 1000) = of_Z 1000.
Proof.
  split.
  - apply (proj2 (percentageToWordIndex_spec (int 50) (int 1000))); reflexivity.
  - apply (proj2 (percentageToWordIndex_spec (int 100) (int 1000))); reflexivity.
Defined.

(** C3, as stated, fails: for a NaN [totalWords] the result is 0 and not
    the rounding, which is NaN; and a word index above [totalWords], or a
    negative one, need not leave [[0, 100]]: 1001 of 1000 words is 100
    percent, and -1 of 1000 is -0. *)
Lemma wordIndexToPercentage_not_as_stated :
  ~ stated_wordIndexToPercentage (int 500) (Num NaN) /\
  ~ stated_wordIndexToPercentage (int 1001) (int 1000) /\
  ~ stated_wordIndexToPercentage (int (-1)) (int 1000).
Proof.
  unfold stated_wordIndexToPercentage, outside_0_100.
  repeat split; vm_compute; intros [H1 H2]; try discriminate.
  - destruct H2 as [H | H]; [left; reflexivity | discriminate | discriminate].
  - destruct H2 as [H | H]; [right; reflexivity | discriminate | discriminate].
Qed.

(** C3, amended.  [wordIndexToPercentage(w, t)] is 0 when [t] is absent
    ([undefined], [null]), NaN, zero or negative, and otherwise
    [Math.round((w / t) * 100)] in binary64 arithmetic: the integer
    nearest to that product when it is finite.  Nothing is clamped, so a
    [w] above [t] or below 0 can give a percentage outside [[0, 100]], as
    1200 of 1000 gives 120 and -500 of 1000 gives -50. *)
Theorem wordIndexToPercentage_spec (w t : arg) :
  wordIndexToPercentage w t =
    (if absent_zero_or_negative t || is_nan (ToNumber t) then n0
     else rounded_percentage w t) /\
  (valid (ToNumber w) = true -> valid (ToNumber t) = true ->
   lt n0 (ToNumber t) = true ->
   is_finite (ratio (ToNumber w) (ToNumber t)) = true ->
   nearest_integer (wordIndexToPercentage w t) (ratio (ToNumber w) (ToNumber t))) /\
  (wordIndexToPercentage (int 1200) (int 1000) = of_Z 120 /\
   outside_0_100 (wordIndexToPercentage (int 1200) (int 1000))) /\
  (wordIndexToPercentage (int (-500)) (int 1000) = of_Z (-50) /\
   outside_0_100 (wordIndexToPercentage (int (-500)) (int 1000))).
Proof.
  split; [|split; [|split; split; try (vm_compute; reflexivity)]].
  - unfold wordIndexToPercentage, rounded_percentage, ratio. rewrite <- no_words_eq.
    destruct (no_words t); reflexivity.
  - intros Hvw Hvt Hpos Hfin. unfold wordIndexToPercentage.
    rewrite (no_words_positive t Hpos).
    apply nearest_integer_Math_round; [|exact Hfin].
    unfold ratio. apply mul_valid; [apply div_valid; assumption | reflexivity].
  - right. vm_compute. reflexivity.
  - left. vm_compute. reflexivity.
Qed.

Lemma wordIndexToPercentage_spec_witness :
  nearest_integer (wordIndexToPercentage (int 29) (int 200))
                  (ratio (of_Z 29) (of_Z 200)).
Proof.
  apply (proj1 (proj2 (wordIndexToPercentage_spec (int 29) (int 200)))); reflexivity.
Defined.

(** C9.  The guard is a test of falsiness: for a [totalWords] that is NaN,
    [null] or [undefined], both conversions return 0, not NaN, although
    [NaN <= 0] and [undefined <= 0] are false. *)
Theorem falsy_totalWords_gives_zero (a t : arg) :
  t = Num NaN \/ t = Null \/ t = Undefined ->
  percentageToWordIndex a t = n0 /\
  wordIndexToPercentage a t = n0 /\
  is_nan n0 = false /\
  ToBoolean t = false /\
  le (ToNumber (Num NaN)) n0 = false /\
  le (ToNumber Undefined) n0 = false.
Proof.
  intros [-> | [-> | ->]]; repeat split.
Qed.

Lemma falsy_totalWords_gives_zero_witness :
  percentageToWordIndex (int 50) (Num NaN) = n0 /\
  wordIndexToPercentage (int 500) (Num NaN) = n0.
Proof.
  destruct (falsy_totalWords_gives_zero (int 50) (Num NaN) (or_introl eq_refl))
    as (H1 & _).
  destruct (falsy_totalWords_gives_zero (int 500) (Num NaN) (or_introl eq_refl))
    as (_ & H2 & _).
  split; assumption.
Defined.

(* ===================================================================== *)
(** * The store *)
(* ===================================================================== *)

Lemma world_eta (w : world) :
  World (items w) (denied w) (fits w) (clock w) (console w) = w.
Proof. destruct w; reflexivity. Qed.

(** What the operations compute, case by case. *)
Lemma saveSession_run (session : value) (w : world) :
  saveSession session w =
    match session with
    | VUndefined | VNull => (inr false, logged "Failed to save session:" TypeError w)
    | _ =>
        if denied w then (inr false, logged "Failed to save session:" SecurityError w)
        else if fits w (items w) STORAGE_KEY
                       (JSON_stringify (record_of session (clock w))) then
          (inr true,
           with_items (<[STORAGE_KEY := JSON_stringify (record_of session (clock w))]> (items w)) w)
        else (inr false, logged "Failed to save session:" QuotaExceededError w)
    end.
Proof.
  unfold saveSession, try_catch, bind, Get, Date_now, localStorage_setItem,
    console_error, ret, throw, record_of.
  destruct session; try reflexivity;
    destruct (denied w); try reflexivity;
    match goal with |- context [fits w ?m ?k ?d] => destruct (fits w m k d) end;
    reflexivity.
Qed.

Lemma loadSession_run (w : world) :
  loadSession w =
    if denied w then (inr VNull, logged "Failed to load session:" SecurityError w)
    else match slot w with
         | None => (inr VNull, w)
         | Some (JsonText v) => (inr v, w)
         | Some (NonJson s) =>
             if String.eqb s "" then (inr VNull, w)
             else (inr VNull, logged "Failed to load session:" SyntaxError w)
         end.
Proof.
  unfold loadSession, try_catch, bind, localStorage_getItem, console_error,
    JSON_parse, ret, throw, slot.
  destruct (denied w); [reflexivity|].
  destruct (items w !! STORAGE_KEY) as [[v|s]|]; try reflexivity.
  cbn. destruct (String.eqb s ""); reflexivity.
Qed.

Lemma hasSession_run (w : world) :
  hasSession w =
    (inr (if denied w then false else match slot w with Some _ => true | None => false end), w).
Proof.
  unfold hasSession, try_catch, bind, localStorage_getItem, ret, slot.
  destruct (denied w); reflexivity.
Qed.

Lemma clearSession_run (w : world) :
  clearSession w =
    if denied w then (inr false, logged "Failed to clear session:" SecurityError w)
    else (inr true, with_items (delete STORAGE_KEY (items w)) w).
Proof.
  unfold clearSession, try_catch, bind, localStorage_removeItem, console_error, ret.
  destruct (denied w); reflexivity.
Qed.

Lemma getSessionSummary_run (w : world) :
  getSessionSummary w =
    (inr (if denied w then VNull
          else match slot w with
               | Some (JsonText VUndefined) | Some (JsonText VNull) => VNull
               | Some (JsonText parsed) =>
                   VObject [("currentWordIndex", prop_of parsed "currentWordIndex");
                            ("totalWords", prop_of parsed "totalWords");
                            ("savedAt", prop_of parsed "savedAt");
                            ("hasText", VBool (to_boolean (prop_of parsed "text")))]
               | _ => VNull
               end), w).
Proof.
  unfold getSessionSummary, try_catch, bind, localStorage_getItem, JSON_parse,
    Get, ret, throw, slot.
  destruct (denied w); [reflexivity|].
  destruct (items w !! STORAGE_KEY) as [[v|s]|]; try reflexivity.
  - destruct v; reflexivity.
  - cbn. destruct (String.eqb s ""); reflexivity.
Qed.

(** A property a record does not have reads as [undefined]. *)
Lemma lookup_prop_absent (k : string) (props : list (string * value)) :
  has_own k (VObject props) = false -> lookup_prop k props = VUndefined.
Proof.
  cbn [has_own]. induction props as [|[k' v] rest IH]; [reflexivity|].
  cbn [existsb lookup_prop fst]. destruct (String.eqb k k'); [discriminate | exact IH].
Qed.

(** A time value is written and read back as it is. *)
Lemma time_value_small (t : Z) : time_value t -> Z.abs t < 2 ^ 53.
Proof. unfold time_value. intros. change (2 ^ 53) with 9007199254740992. lia. Qed.

Lemma json_of_time (t : Z) :
  time_value t -> json_of (VNumber (of_Z t)) = Some (VNumber (of_Z t)).
Proof.
  intros Ht. unfold of_Z, binary_normalize.
  destruct t as [|m|m]; [reflexivity| |unfold time_value in Ht; lia].
  destruct (binary_round_small false m (time_value_small _ Ht)) as (_ & _ & m' & e' & ->).
  reflexivity.
Qed.

(** The text written for a record of five fields: each field is there
    unless its value has no JSON text, and [savedAt] is always there. *)
Lemma json_of_record (t c n st : value) (x : number) :
  json_of (VNumber x) = Some (VNumber x) ->
  exists rec,
    json_of (VObject [("text", t); ("currentWordIndex", c); ("totalWords", n);
                      ("settings", st); ("savedAt", VNumber x)]) = Some (VObject rec) /\
    lookup_prop "savedAt" rec = VNumber x /\
    occurrences "savedAt" rec = 1%nat /\
    (json_value t -> lookup_prop "text" rec = t) /\
    (json_value c -> lookup_prop "currentWordIndex" rec = c) /\
    (json_value n -> lookup_prop "totalWords" rec = n) /\
    (json_value st -> lookup_prop "settings" rec = st).
Proof.
  intros Hx. unfold json_value.
  cbn [json_of] in Hx. injection Hx as Hx. cbn [json_of].
  destruct (json_of t) as [jt|], (json_of c) as [jc|], (json_of n) as [jn|],
    (json_of st) as [js|];
    eexists; (split; [reflexivity|]); cbn; rewrite ?Hx;
    repeat split; intros; congruence.
Qed.

(** C1.  For a valid session: after a successful [saveSession], an
    immediate [loadSession] returns a record with the session's [text],
    [currentWordIndex], [totalWords] and [settings], and a [savedAt] that
    is not before any time [t0] the clock showed up to the save. *)
Theorem load_after_save (props : list (string * value)) (w w' : world) (t0 : Z) :
  valid_session props ->
  time_value t0 -> time_value (clock w) -> t0 <= clock w ->
  saveSession (VObject props) w = (inr true, w') ->
  exists rec,
    loadSession w' = (inr (VObject rec), w') /\
    (forall k, In k session_fields -> lookup_prop k rec = lookup_prop k props) /\
    exists savedAt,
      lookup_prop "savedAt" rec = VNumber savedAt /\ le (of_Z t0) savedAt = true.
Proof.
  intros Hvalid Ht0 Hclock Hle Hsave.
  rewrite saveSession_run in Hsave.
  destruct (denied w) eqn:Hd; [discriminate|].
  destruct (fits w _ _ _) eqn:Hfits; [|discriminate].
  injection Hsave as <-.
  unfold record_of, JSON_stringify, prop_of.
  destruct (json_of_record (lookup_prop "text" props) (lookup_prop "currentWordIndex" props)
              (lookup_prop "totalWords" props) (lookup_prop "settings" props)
              (of_Z (clock w)) (json_of_time _ Hclock))
    as (rec & -> & Hsaved & _ & Htext & Hindex & Htotal & Hsettings).
  exists rec. split; [|split].
  - rewrite loadSession_run. cbn [denied with_items]. rewrite Hd.
    unfold slot. cbn [items with_items]. rewrite lookup_insert_eq. reflexivity.
  - intros k [<- | [<- | [<- | [<- | []]]]];
      [apply Htext | apply Hindex | apply Htotal | apply Hsettings];
      apply Hvalid; cbn; tauto.
  - exists (of_Z (clock w)). split; [exact Hsaved|].
    apply of_Z_le; auto using time_value_small.
Qed.

Lemma load_after_save_witness :
  exists rec,
    loadSession (snd (saveSession (VObject example_session) example_world)) =
      (inr (VObject rec), snd (saveSession (VObject example_session) example_world)) /\
    (forall k, In k session_fields -> lookup_prop k rec = lookup_prop k example_session) /\
    exists savedAt,
      lookup_prop "savedAt" rec = VNumber savedAt /\
      le (of_Z 1699999999999) savedAt = true.
Proof.
  apply (load_after_save example_session example_world).
  - intros k [<- | [<- | [<- | [<- | []]]]]; reflexivity.
  - unfold time_value. lia.
  - unfold time_value, example_world, clock. lia.
  - unfold example_world, clock. lia.
  - reflexivity.
Defined.

(** Without validity there is no round trip: a NaN word count is stored
    as [null]. *)
Example nan_is_stored_as_null :
  fst ((let* _ := saveSession (VObject [("totalWords", VNumber NaN)]) in
        let* loaded := loadSession in
        Get loaded "totalWords") example_world) = inr VNull.
Proof. reflexivity. Qed.

(** C4, as stated, fails: a stored [text] that is the Number 42 is no
    string, and [hasText] is true. *)
Lemma summary_not_as_stated :
  ~ stated_summary (world_holding (JsonText (VObject numeric_text_record))).
Proof.
  intros Hstated.
  destruct (Hstated numeric_text_record eq_refl eq_refl) as (sprops & Hrun & _ & Hiff).
  rewrite getSessionSummary_run in Hrun. injection Hrun as <-.
  destruct (proj1 Hiff eq_refl) as (s & Hs & _). discriminate.
Qed.

(** C4, amended.  For a stored record, the summary has no [text]
    property, and [hasText] is true exactly when the stored [text] is
    truthy; when the stored [text] is a string, exactly when it is not
    empty; and it is false when the record has no [text]. *)
Theorem summary_hides_text (w : world) (props : list (string * value)) :
  denied w = false -> slot w = Some (JsonText (VObject props)) ->
  exists sprops,
    getSessionSummary w = (inr (VObject sprops), w) /\
    has_own "text" (VObject sprops) = false /\
    lookup_prop "hasText" sprops = VBool (to_boolean (lookup_prop "text" props)) /\
    (forall s, lookup_prop "text" props = VString s ->
               lookup_prop "hasText" sprops = VBool true <-> s <> ""%string) /\
    (has_own "text" (VObject props) = false ->
     lookup_prop "hasText" sprops = VBool false).
Proof.
  intros Hd Hs. rewrite getSessionSummary_run, Hd, Hs.
  eexists. split; [reflexivity|]. split; [reflexivity|]. split; [reflexivity|].
  cbn [prop_of lookup_prop String.eqb Ascii.eqb Bool.eqb]. split.
  - intros s ->. cbn [to_boolean]. destruct (String.eqb_spec s ""); cbn; split;
      congruence.
  - intros Hown. rewrite (lookup_prop_absent _ _ Hown). reflexivity.
Qed.

Lemma summary_hides_text_witness :
  exists sprops,
    getSessionSummary (world_holding (JsonText (VObject example_session))) =
      (inr (VObject sprops), world_holding (JsonText (VObject example_session))) /\
    has_own "text" (VObject sprops) = false /\
    lookup_prop "hasText" sprops = VBool true.
Proof.
  destruct (summary_hides_text (world_holding (JsonText (VObject example_session)))
              example_session eq_refl eq_refl) as (sprops & H1 & H2 & H3 & _).
  exists sprops. repeat split; assumption.
Defined.

(** C5.  When [saveSession] succeeds, the slot holds the new record,
    whatever it held before; the record has one [savedAt], the clock's
    time; and a session that differs only outside the four fields it is
    read for (in its own [savedAt], say) leaves the same store. *)
Theorem savedAt_is_set_by_the_store (session : value) (w w' : world) :
  time_value (clock w) ->
  saveSession session w = (inr true, w') ->
  (exists rec,
      items w' = <[STORAGE_KEY := JsonText (VObject rec)]> (items w) /\
      slot w' = Some (JsonText (VObject rec)) /\
      lookup_prop "savedAt" rec = VNumber (of_Z (clock w)) /\
      occurrences "savedAt" rec = 1%nat) /\
  (forall props props',
      session = VObject props ->
      (forall k, In k session_fields -> lookup_prop k props' = lookup_prop k props) ->
      saveSession (VObject props') w = (inr true, w')).
Proof.
  intros Hclock Hsave. rewrite saveSession_run in Hsave. split.
  - assert (exists rec, JSON_stringify (record_of session (clock w)) = JsonText (VObject rec) /\
                        lookup_prop "savedAt" rec = VNumber (of_Z (clock w)) /\
                        occurrences "savedAt" rec = 1%nat) as (rec & Hrec & Hsaved & Hone).
    { unfold JSON_stringify, record_of.
      destruct (json_of_record (prop_of session "text") (prop_of session "currentWordIndex")
                  (prop_of session "totalWords") (prop_of session "settings")
                  (of_Z (clock w)) (json_of_time _ Hclock))
        as (rec & -> & Hsaved & Hone & _).
      exists rec. repeat split; assumption. }
    exists rec. rewrite Hrec in Hsave.
    destruct session; try discriminate;
      destruct (denied w); try discriminate;
      destruct (fits w _ _ _); try discriminate;
      injection Hsave as <-; unfold slot; cbn [items with_items];
      rewrite lookup_insert_eq; repeat split; assumption.
  - intros props props' -> Hsame. rewrite saveSession_run.
    assert (record_of (VObject props') (clock w) = record_of (VObject props) (clock w)) as ->.
    { unfold record_of, prop_of. rewrite !Hsame by (cbn; tauto). reflexivity. }
    exact Hsave.
Qed.

Lemma savedAt_is_set_by_the_store_witness :
  exists rec,
    slot (snd (saveSession (VObject example_session) example_world)) =
      Some (JsonText (VObject rec)) /\
    lookup_prop "savedAt" rec = VNumber (of_Z 1700000000000) /\
    lookup_prop "savedAt" example_session = VNumber (of_Z 5).
Proof.
  destruct (savedAt_is_set_by_the_store (VObject example_session) example_world
              (snd (saveSession (VObject example_session) example_world)))
    as [(rec & _ & Hslot & Hsaved & _) _].
  - unfold time_value, example_world, clock. lia.
  - reflexivity.
  - exists rec. repeat split; assumption.
Defined.

(** C6, as stated, fails: the empty string does not parse either, and
    when the slot holds it [loadSession] returns [null] without logging
    anything. *)
Lemma containment_not_as_stated :
  ~ stated_containment (VObject example_session) (world_holding (NonJson "")).
Proof.
  intros [_ Hload].
  destruct (Hload (NonJson "") SyntaxError eq_refl eq_refl eq_refl) as [e He].
  rewrite loadSession_run in He.
  apply (f_equal (fun r => console (snd r))) in He. discriminate He.
Qed.

(** C6, amended.  If [setItem] throws on the record that [saveSession]
    writes (storage refused, or a quota that does not admit this record),
    [saveSession] returns false, having logged one entry, which carries
    the error thrown, and changed nothing else, and throws nothing; a
    session that is [null] or [undefined] fails before the write, with
    one TypeError logged.  If the slot holds text that does not parse and
    is not empty, [loadSession] returns [null], having logged one entry,
    and throws nothing; if it holds the empty string, [loadSession]
    returns [null] and logs nothing. *)
Theorem failures_are_contained (w : world) :
  (forall session e,
      fst (localStorage_setItem STORAGE_KEY
             (JSON_stringify (record_of session (clock w))) w) = inl e ->
      saveSession session w =
        (inr false,
         logged "Failed to save session:"
           (match session with VUndefined | VNull => TypeError | _ => e end) w)) /\
  (forall chars,
      denied w = false -> slot w = Some (NonJson chars) ->
      (chars <> ""%string ->
       loadSession w = (inr VNull, logged "Failed to load session:" SyntaxError w)) /\
      (chars = ""%string -> loadSession w = (inr VNull, w))).
Proof.
  split.
  - intros session e He. rewrite saveSession_run.
    unfold localStorage_setItem in He.
    destruct session; try reflexivity;
      destruct (denied w); try (injection He as <-; reflexivity);
      destruct (fits w _ _ _); try discriminate;
      injection He as <-; reflexivity.
  - intros chars Hd Hs. rewrite loadSession_run, Hd, Hs.
    destruct (String.eqb_spec chars ""); split; intros H;
      try contradiction; reflexivity.
Qed.

Lemma failures_are_contained_witness :
  saveSession (VObject example_session) nearly_full_world =
    (inr false,
     logged "Failed to save session:" QuotaExceededError nearly_full_world) /\
  loadSession (world_holding (NonJson "{not json")) =
    (inr VNull, logged "Failed to load session:" SyntaxError
                  (world_holding (NonJson "{not json"))) /\
  loadSession (world_holding (NonJson "")) =
    (inr VNull, world_holding (NonJson "")).
Proof.
  split; [|split].
  - apply (proj1 (failures_are_contained nearly_full_world)
             (VObject example_session) QuotaExceededError).
    reflexivity.
  - apply (proj2 (failures_are_contained (world_holding (NonJson "{not json")))
             "{not json"%string); [reflexivity | reflexivity | discriminate].
  - apply (proj2 (failures_are_contained (world_holding (NonJson "")))
             ""%string); reflexivity.
Defined.

(** C7.  Where storage is accessible, [clearSession] returns true and
    empties the slot, also when the slot is empty already (the store is
    then left as it was), and clearing again changes nothing.  Whatever
    the store was, after [clearSession] [loadSession] returns [null] and
    [hasSession] returns false. *)
Theorem clearSession_idempotent (w : world) :
  (denied w = false ->
   fst (clearSession w) = inr true /\
   slot (snd (clearSession w)) = None /\
   (slot w = None -> clearSession w = (inr true, w)) /\
   clearSession (snd (clearSession w)) = (inr true, snd (clearSession w))) /\
  fst (loadSession (snd (clearSession w))) = inr VNull /\
  fst (hasSession (snd (clearSession w))) = inr false.
Proof.
  pose proof (clearSession_run w) as Hc.
  destruct (denied w) eqn:Hd; rewrite Hc; cbn [fst snd].
  - split; [discriminate|]. rewrite loadSession_run, hasSession_run.
    cbn [denied logged]. rewrite Hd. split; reflexivity.
  - rewrite loadSession_run, hasSession_run, clearSession_run.
    cbn [denied with_items]. rewrite Hd.
    unfold slot. cbn [items with_items]. rewrite lookup_delete_eq.
    split; [|split; reflexivity]. intros _. repeat split.
    + intros Hnone. unfold with_items. rewrite (delete_id _ _ Hnone).
      rewrite world_eta. reflexivity.
    + unfold with_items. cbn [items denied fits clock console].
      rewrite delete_delete_eq. reflexivity.
Qed.

Lemma clearSession_idempotent_witness :
  fst (clearSession example_world) = inr true /\
  clearSession example_world = (inr true, example_world).
Proof.
  destruct (proj1 (clearSession_idempotent example_world) eq_refl) as (H1 & _ & H2 & _).
  split; [exact H1 | apply H2; reflexivity].
Defined.

(** C8.  When the slot holds the empty string, [hasSession] returns true
    while [loadSession] and [getSessionSummary] return [null] (and nothing
    is logged). *)
Theorem empty_string_slot (w : world) :
  denied w = false -> slot w = Some (NonJson "") ->
  hasSession w = (inr true, w) /\
  loadSession w = (inr VNull, w) /\
  getSessionSummary w = (inr VNull, w).
Proof.
  intros Hd Hs.
  rewrite hasSession_run, loadSession_run, getSessionSummary_run, Hd, Hs.
  repeat split.
Qed.

Lemma empty_string_slot_witness :
  hasSession (world_holding (NonJson "")) = (inr true, world_holding (NonJson "")) /\
  loadSession (world_holding (NonJson "")) = (inr VNull, world_holding (NonJson "")) /\
  getSessionSummary (world_holding (NonJson "")) = (inr VNull, world_holding (NonJson "")).
Proof.
  apply (empty_string_slot (world_holding (NonJson ""))); reflexivity.
Defined.

(** C10.  For a stored record that parses, the summary's
    [currentWordIndex], [totalWords] and [savedAt] are the record's,
    whatever they are, and [undefined] where the record has none. *)
Theorem summary_forwards_fields (w : world) (props : list (string * value)) :
  denied w = false -> slot w = Some (JsonText (VObject props)) ->
  exists sprops,
    getSessionSummary w = (inr (VObject sprops), w) /\
    forall k, In k ["currentWordIndex"; "totalWords"; "savedAt"]%string ->
      lookup_prop k sprops = lookup_prop k props /\
      (has_own k (VObject props) = false -> lookup_prop k sprops = VUndefined).
Proof.
  intros Hd Hs. rewrite getSessionSummary_run, Hd, Hs.
  eexists. split; [reflexivity|].
  intros k Hk.
  assert (lookup_prop k
            [("currentWordIndex", prop_of (VObject props) "currentWordIndex");
             ("totalWords", prop_of (VObject props) "totalWords");
             ("savedAt", prop_of (VObject props) "savedAt");
             ("hasText", VBool (to_boolean (prop_of (VObject props) "text")))]
          = lookup_prop k props) as Heq
    by (destruct Hk as [<- | [<- | [<- | []]]]; reflexivity).
  split; [exact Heq|].
  intros Hown. rewrite Heq. apply lookup_prop_absent, Hown.
Qed.

Lemma summary_forwards_fields_witness :
  exists sprops,
    getSessionSummary (world_holding (JsonText (VObject numeric_text_record))) =
      (inr (VObject sprops), world_holding (JsonText (VObject numeric_text_record))) /\
    lookup_prop "currentWordIndex" sprops = VNumber (of_Z 0) /\
    lookup_prop "totalWords" sprops = VUndefined.
Proof.
  destruct (summary_forwards_fields
              (world_holding (JsonText (VObject numeric_text_record)))
              numeric_text_record eq_refl eq_refl) as (sprops & Hrun & Hfields).
  exists sprops. split; [exact Hrun|]. split.
  - apply (Hfields "currentWordIndex"%string). cbn; tauto.
  - apply (Hfields "totalWords"%string); [cbn; tauto | reflexivity].
Defined.

(* ===================================================================== *)
(** * Further properties of the store *)
(* ===================================================================== *)

(** The text written for a record of five fields, field by field. *)
Lemma json_of_record_image (t c n st : value) (x : number) :
  json_of (VNumber x) = Some (VNumber x) ->
  exists rec,
    json_of (VObject [("text", t); ("currentWordIndex", c); ("totalWords", n);
                      ("settings", st); ("savedAt", VNumber x)]) = Some (VObject rec) /\
    lookup_prop "text" rec = json_image t /\
    lookup_prop "currentWordIndex" rec = json_image c /\
    lookup_prop "totalWords" rec = json_image n /\
    lookup_prop "settings" rec = json_image st /\
    lookup_prop "savedAt" rec = VNumber x /\
    (forall k, has_own k (VObject rec) = true ->
               In k (session_fields ++ ["savedAt"%string])).
Proof.
  intros Hx. unfold json_image.
  cbn [json_of] in Hx. injection Hx as Hx. cbn [json_of].
  destruct (json_of t) as [jt|], (json_of c) as [jc|], (json_of n) as [jn|],
    (json_of st) as [js|];
    eexists; (split; [reflexivity|]); cbn [lookup_prop default]; rewrite ?Hx;
    (repeat split; try reflexivity);
    intros k Hk; cbn [has_own existsb fst] in Hk;
    repeat (apply orb_true_iff in Hk as [Hk | Hk];
            [apply String.eqb_eq in Hk; subst k; cbn; tauto|]);
    discriminate.
Qed.

(** What a successful [saveSession] leaves behind. *)
Lemma saveSession_success (session : value) (w w' : world) :
  saveSession session w = (inr true, w') ->
  denied w = false /\
  w' = with_items (<[STORAGE_KEY := JSON_stringify (record_of session (clock w))]> (items w)) w.
Proof.
  rewrite saveSession_run.
  destruct session; try discriminate;
    destruct (denied w); try discriminate;
    destruct (fits w _ _ _); try discriminate;
    intros [= <-]; split; reflexivity.
Qed.

(** X1.  No operation lets an exception out: whatever the session and
    whatever the host (storage refused, quota exhausted, stored text
    corrupt), each of the five operations returns a value. *)
Theorem operations_never_throw (session : value) (w : world) :
  (exists b, fst (saveSession session w) = inr b) /\
  (exists v, fst (loadSession w) = inr v) /\
  (exists b, fst (hasSession w) = inr b) /\
  (exists b, fst (clearSession w) = inr b) /\
  (exists v, fst (getSessionSummary w) = inr v).
Proof.
  rewrite saveSession_run, loadSession_run, hasSession_run, clearSession_run,
    getSessionSummary_run.
  repeat split.
  - destruct session; try (eexists; reflexivity);
      destruct (denied w); try (eexists; reflexivity);
      destruct (fits w _ _ _); eexists; reflexivity.
  - destruct (denied w); [eexists; reflexivity|].
    destruct (slot w) as [[v|s]|]; try (eexists; reflexivity).
    destruct (String.eqb s ""); eexists; reflexivity.
  - eexists; reflexivity.
  - destruct (denied w); eexists; reflexivity.
  - eexists; reflexivity.
Qed.

(** X2.  [hasSession] and [getSessionSummary] are silent and read-only:
    in every world, also when storage is refused or the stored text is
    corrupt, they leave the store and the console exactly as they were;
    [loadSession] in a world that refuses storage does log. *)
Theorem checks_are_silent (w : world) :
  snd (hasSession w) = w /\
  snd (getSessionSummary w) = w /\
  (denied w = true ->
   console (snd (loadSession w)) =
     console w ++ [("Failed to load session:"%string, SecurityError)]).
Proof.
  rewrite hasSession_run, getSessionSummary_run, loadSession_run.
  repeat split. intros ->. reflexivity.
Qed.

Lemma checks_are_silent_witness :
  console (snd (loadSession refusing_world)) =
    [("Failed to load session:"%string, SecurityError)] /\
  snd (getSessionSummary refusing_world) = refusing_world.
Proof.
  destruct (checks_are_silent refusing_world) as (_ & H2 & H3).
  split; [apply H3; reflexivity | exact H2].
Defined.

(** X3.  The module owns one key: whatever an operation does, every
    other key of localStorage holds what it held. *)
Theorem other_keys_untouched (session : value) (w : world) (key : string) :
  key <> STORAGE_KEY ->
  items (snd (saveSession session w)) !! key = items w !! key /\
  items (snd (loadSession w)) !! key = items w !! key /\
  items (snd (hasSession w)) !! key = items w !! key /\
  items (snd (clearSession w)) !! key = items w !! key /\
  items (snd (getSessionSummary w)) !! key = items w !! key.
Proof.
  intros Hkey.
  rewrite saveSession_run, loadSession_run, hasSession_run, clearSession_run,
    getSessionSummary_run.
  repeat split.
  - destruct session; try reflexivity;
      destruct (denied w); try reflexivity;
      destruct (fits w _ _ _); try reflexivity;
      cbn [snd items with_items]; apply lookup_insert_ne; congruence.
  - destruct (denied w); [reflexivity|].
    destruct (slot w) as [[v|s]|]; try reflexivity.
    destruct (String.eqb s ""); reflexivity.
  - destruct (denied w); [reflexivity|].
    cbn [snd items with_items]. apply lookup_delete_ne. congruence.
Qed.

Lemma other_keys_untouched_witness :
  items (snd (saveSession (VObject example_session) shared_world)) !! "theme"%string =
    Some (NonJson "dark") /\
  items (snd (clearSession shared_world)) !! "theme"%string = Some (NonJson "dark").
Proof.
  destruct (other_keys_untouched (VObject example_session) shared_world "theme"%string)
    as (H1 & _ & _ & H4 & _); [discriminate|].
  split; [rewrite H1 | rewrite H4]; reflexivity.
Defined.

(** X4.  [saveSession] is all or nothing.  When it returns true, the slot
    holds the text of the new record and nothing is logged; when it
    returns false, localStorage is as it was and exactly one entry is
    logged; it does nothing else. *)
Theorem saveSession_all_or_nothing (session : value) (w : world) :
  match saveSession session w with
  | (inr true, w') =>
      slot w' = Some (JSON_stringify (record_of session (clock w))) /\
      console w' = console w
  | (inr false, w') =>
      items w' = items w /\
      exists e, console w' = console w ++ [("Failed to save session:"%string, e)]
  | (inl _, _) => False
  end.
Proof.
  rewrite saveSession_run.
  destruct session; try (split; [reflexivity | eexists; reflexivity]);
    destruct (denied w); try (split; [reflexivity | eexists; reflexivity]);
    destruct (fits w _ _ _); try (split; [reflexivity | eexists; reflexivity]);
    (split; [|reflexivity]); unfold slot; cbn [items with_items];
    apply lookup_insert_eq.
Qed.

(** X5.  A session that is [null] or [undefined] is never saved:
    [saveSession] returns false and logs a TypeError without writing.  Any
    other value that is no record (a boolean, a Number, a string, an
    array) is accepted: its fields read as [undefined], and the stored
    record holds [savedAt] alone. *)
Theorem saveSession_of_non_record (session : value) (w : world) :
  (session = VNull \/ session = VUndefined ->
   saveSession session w =
     (inr false, logged "Failed to save session:" TypeError w)) /\
  (fieldless session = true -> denied w = false ->
   time_value (clock w) ->
   fits w (items w) STORAGE_KEY
        (JsonText (VObject [("savedAt", VNumber (of_Z (clock w)))])) = true ->
   fst (saveSession session w) = inr true /\
   fst (loadSession (snd (saveSession session w))) =
     inr (VObject [("savedAt", VNumber (of_Z (clock w)))])).
Proof.
  split.
  - intros [-> | ->]; apply saveSession_run.
  - intros Hf Hd Ht Hfits.
    assert (JSON_stringify (record_of session (clock w)) =
            JsonText (VObject [("savedAt", VNumber (of_Z (clock w)))])) as Htext.
    { pose proof (json_of_time _ Ht) as Hx. cbn [json_of] in Hx. injection Hx as Hx.
      destruct session; try discriminate; unfold JSON_stringify, record_of;
        cbn [prop_of json_of]; rewrite Hx; reflexivity. }
    rewrite saveSession_run, Hd, Htext, Hfits.
    destruct session; try discriminate; (split; [reflexivity|]);
      rewrite loadSession_run; cbn [snd denied with_items]; rewrite Hd;
      unfold slot; cbn [items with_items]; rewrite lookup_insert_eq; reflexivity.
Qed.

Lemma saveSession_of_non_record_witness :
  saveSession VNull example_world =
    (inr false, logged "Failed to save session:" TypeError example_world) /\
  fst (loadSession (snd (saveSession (VString "just text") example_world))) =
    inr (VObject [("savedAt", VNumber (of_Z 1700000000000))]).
Proof.
  split.
  - apply (proj1 (saveSession_of_non_record VNull example_world)). left. reflexivity.
  - apply (proj2 (saveSession_of_non_record (VString "just text") example_world));
      try reflexivity.
    unfold time_value, example_world, clock. lia.
Defined.

(** X6.  [hasSession] returns true right after a successful
    [saveSession], and false before any save: it returns true exactly
    when storage is accessible and the slot is occupied. *)
Theorem hasSession_after_save (session : value) (w w' : world) :
  (saveSession session w = (inr true, w') -> hasSession w' = (inr true, w')) /\
  (fst (hasSession w) = inr true <-> denied w = false /\ slot w <> None) /\
  (slot w = None -> fst (hasSession w) = inr false).
Proof.
  split; [|split].
  - intros Hsave. destruct (saveSession_success _ _ _ Hsave) as [Hd ->].
    rewrite hasSession_run. cbn [denied with_items]. rewrite Hd.
    unfold slot. cbn [items with_items]. rewrite lookup_insert_eq. reflexivity.
  - rewrite hasSession_run. cbn [fst].
    destruct (denied w); [split; [discriminate | intros [? _]; discriminate]|].
    destruct (slot w) as [d|].
    + split; [intros _; split; [reflexivity | discriminate] | reflexivity].
    + split; [discriminate | intros [_ H]; contradiction].
  - intros Hs. rewrite hasSession_run, Hs. destruct (denied w); reflexivity.
Qed.

Lemma hasSession_after_save_witness :
  hasSession (snd (saveSession (VObject example_session) example_world)) =
    (inr true, snd (saveSession (VObject example_session) example_world)) /\
  fst (hasSession example_world) = inr false.
Proof.
  destruct (hasSession_after_save (VObject example_session) example_world
              (snd (saveSession (VObject example_session) example_world)))
    as (H1 & _ & H3).
  split; [apply H1 | apply H3]; reflexivity.
Defined.

(** X7.  After a successful [saveSession] of a record, the summary is
    that of the saved session: its [currentWordIndex] and [totalWords] as
    JSON keeps them, the clock's time as [savedAt], and [hasText] telling
    whether the saved [text] is truthy. *)
Theorem summary_after_save (props : list (string * value)) (w w' : world) :
  time_value (clock w) ->
  saveSession (VObject props) w = (inr true, w') ->
  getSessionSummary w' =
    (inr (VObject
            [("currentWordIndex", json_image (lookup_prop "currentWordIndex" props));
             ("totalWords", json_image (lookup_prop "totalWords" props));
             ("savedAt", VNumber (of_Z (clock w)));
             ("hasText", VBool (to_boolean (json_image (lookup_prop "text" props))))]),
     w').
Proof.
  intros Ht Hsave. destruct (saveSession_success _ _ _ Hsave) as [Hd ->].
  rewrite getSessionSummary_run. cbn [denied with_items]. rewrite Hd.
  unfold slot. cbn [items with_items]. rewrite lookup_insert_eq.
  unfold JSON_stringify, record_of, prop_of.
  destruct (json_of_record_image (lookup_prop "text" props)
              (lookup_prop "currentWordIndex" props) (lookup_prop "totalWords" props)
              (lookup_prop "settings" props) (of_Z (clock w)) (json_of_time _ Ht))
    as (rec & -> & Htext & Hindex & Htotal & _ & Hsaved & _).
  cbn [prop_of]. rewrite Htext, Hindex, Htotal, Hsaved. reflexivity.
Qed.

Lemma summary_after_save_witness :
  fst (getSessionSummary (snd (saveSession (VObject lossy_session) example_world))) =
    inr (VObject [("currentWordIndex", VNumber pos_zero);
                  ("totalWords", VNull);
                  ("savedAt", VNumber (of_Z 1700000000000));
                  ("hasText", VBool false)]).
Proof.
  rewrite (summary_after_save lossy_session example_world
             (snd (saveSession (VObject lossy_session) example_world))).
  - reflexivity.
  - unfold time_value, example_world, clock. lia.
  - reflexivity.
Defined.



(** X9.  The summary never disagrees with the full record: in every
    world, [getSessionSummary] returns the summary of what [loadSession]
    returns, and [null] where [loadSession] returns [null]. *)
Theorem summary_agrees_with_load (w : world) :
  exists loaded,
    fst (loadSession w) = inr loaded /\
    fst (getSessionSummary w) = inr (summary_of loaded).
Proof.
  rewrite loadSession_run, getSessionSummary_run.
  destruct (denied w); [exists VNull; split; reflexivity|].
  destruct (slot w) as [[v|s]|].
  - exists v. split; [reflexivity|]. destruct v; reflexivity.
  - exists VNull. destruct (String.eqb s ""); split; reflexivity.
  - exists VNull. split; reflexivity.
Qed.

(** X10.  [loadSession] reads only.  On an empty slot it returns [null]
    and logs nothing; it logs (one entry) exactly when storage is refused
    or the stored text is not empty and does not parse. *)
Theorem loadSession_reads_only (w : world) :
  items (snd (loadSession w)) = items w /\
  (denied w = false -> slot w = None -> loadSession w = (inr VNull, w)) /\
  (snd (loadSession w) = w \/
   exists e, loadSession w = (inr VNull, logged "Failed to load session:" e w) /\
             (denied w = true \/
              exists chars, slot w = Some (NonJson chars) /\ chars <> ""%string)).
Proof.
  rewrite loadSession_run.
  destruct (denied w) eqn:Hd.
  - split; [reflexivity|]. split; [discriminate|]. right. eauto.
  - destruct (slot w) as [[v|s]|] eqn:Hs; try (repeat split; auto; fail).
    + split; [reflexivity|]. split; [discriminate|]. left. reflexivity.
    + destruct (String.eqb_spec s "") as [-> | Hne].
      * split; [reflexivity|]. split; [discriminate|]. left. reflexivity.
      * split; [reflexivity|]. split; [discriminate|]. right.
        exists SyntaxError. split; [reflexivity|]. right. eauto.
Qed.

Lemma loadSession_reads_only_witness :
  loadSession example_world = (inr VNull, example_world).
Proof.
  apply (proj1 (proj2 (loadSession_reads_only example_world))); reflexivity.
Defined.

(** X11.  [clearSession] returns true exactly when storage is
    accessible; then the slot is empty and nothing is logged.  When
    storage is refused it returns false, logs one entry, and leaves
    localStorage as it was. *)
Theorem clearSession_outcome (w : world) :
  (fst (clearSession w) = inr true <-> denied w = false) /\
  match clearSession w with
  | (inr true, w') => slot w' = None /\ console w' = console w
  | (inr false, w') =>
      w' = logged "Failed to clear session:" SecurityError w /\ items w' = items w
  | (inl _, _) => False
  end.
Proof.
  rewrite clearSession_run. destruct (denied w).
  - split; [split; discriminate|]. split; reflexivity.
  - split; [split; reflexivity|]. split; [|reflexivity].
    unfold slot. cbn [items with_items]. apply lookup_delete_eq.
Qed.

(** X12.  The round trip in general.  After a successful [saveSession]
    of a record, [loadSession] returns a record whose four fields are the
    session's as JSON keeps them: a field without JSON text ([undefined],
    or missing) is missing, a Number that is not finite reads [null], and
    the record has no property beyond the four fields and [savedAt]. *)
Theorem load_after_save_as_json (props : list (string * value)) (w w' : world) :
  time_value (clock w) ->
  saveSession (VObject props) w = (inr true, w') ->
  exists rec,
    loadSession w' = (inr (VObject rec), w') /\
    (forall k, In k session_fields ->
       lookup_prop k rec = json_image (lookup_prop k props) /\
       (has_own k (VObject props) = false -> lookup_prop k rec = VUndefined) /\
       (forall x, lookup_prop k props = VNumber x -> is_finite x = false ->
                  lookup_prop k rec = VNull)) /\
    (forall k, has_own k (VObject rec) = true ->
               In k (session_fields ++ ["savedAt"%string])).
Proof.
  intros Ht Hsave. destruct (saveSession_success _ _ _ Hsave) as [Hd ->].
  unfold JSON_stringify, record_of, prop_of.
  destruct (json_of_record_image (lookup_prop "text" props)
              (lookup_prop "currentWordIndex" props) (lookup_prop "totalWords" props)
              (lookup_prop "settings" props) (of_Z (clock w)) (json_of_time _ Ht))
    as (rec & -> & Htext & Hindex & Htotal & Hsettings & _ & Hkeys).
  exists rec. split; [|split; [|exact Hkeys]].
  - rewrite loadSession_run. cbn [denied with_items]. rewrite Hd.
    unfold slot. cbn [items with_items]. rewrite lookup_insert_eq. reflexivity.
  - intros k Hk.
    assert (lookup_prop k rec = json_image (lookup_prop k props)) as Heq
      by (destruct Hk as [<- | [<- | [<- | [<- | []]]]]; assumption).
    split; [exact Heq|]. split.
    + intros Hown. rewrite Heq, (lookup_prop_absent _ _ Hown). reflexivity.
    + intros x Hx Hfin. rewrite Heq, Hx.
      destruct x; try discriminate; reflexivity.
Qed.

Lemma load_after_save_as_json_witness :
  exists rec,
    fst (loadSession (snd (saveSession (VObject lossy_session) example_world))) =
      inr (VObject rec) /\
    lookup_prop "totalWords" rec = VNull /\
    lookup_prop "settings" rec = VUndefined.
Proof.
  destruct (load_after_save_as_json lossy_session example_world
              (snd (saveSession (VObject lossy_session) example_world)))
    as (rec & Hload & Hfields & _).
  - unfold time_value, example_world, clock. lia.
  - reflexivity.
  - exists rec. split; [rewrite Hload; reflexivity|]. split.
    + apply (Hfields "totalWords"%string) with (x := NaN); [cbn; tauto | reflexivity..].
    + apply (Hfields "settings"%string); [cbn; tauto | reflexivity].
Defined.

(* ===================================================================== *)
(** * Further properties of the conversions *)
(* ===================================================================== *)

Lemma ulps_n100 : ulps n100 = 100 * 2 ^ 1074.
Proof. reflexivity. Qed.

(** The ratio of a word index within the text lies between 0 and 100. *)
Lemma ratio_range (w t : number) :
  valid w = true -> valid t = true -> is_finite t = true ->
  le n0 w = true -> le w t = true -> lt n0 t = true ->
  valid (ratio w t) = true /\ is_finite (ratio w t) = true /\
  0 <= ulps (ratio w t) <= ulps n100.
Proof.
  intros Hvw Hvt Hft H0w Hwt Hpos. unfold ratio.
  destruct t as [[|]|[|]| |[|] mt et]; try discriminate.
  destruct w as [sw|[|]| |[|] mw ew]; try discriminate.
  - assert (mul (div (S754_zero sw) (S754_finite false mt et)) n100 = S754_zero sw)
      as -> by (destruct sw; reflexivity).
    rewrite ulps_n100. pose proof (pow2_pos 1074 ltac:(lia)).
    repeat split; cbn [ulps]; lia.
  - cbn [valid valid_binary] in Hvw, Hvt.
    apply (le_ulps (S754_finite false mw ew) (S754_finite false mt et)) in Hwt;
      try assumption; try reflexivity.
    cbn [ulps cond_Zopp] in Hwt.
    destruct (div_le_one mw mt ew et Hvw Hvt Hwt)
      as (Hvq & Hfq & [Hq | (mq & eq & Hq)] & Hleq); cbv zeta in *; rewrite Hq in *.
    + assert (mul pos_zero n100 = pos_zero) as -> by reflexivity.
      rewrite ulps_n100. pose proof (pow2_pos 1074 ltac:(lia)).
      repeat split; cbn [ulps pos_zero]; lia.
    + cbn [valid valid_binary] in Hvq. cbn [ulps cond_Zopp] in Hleq.
      change n100 with (S754_finite false 7036874417766400 (-46)).
      destruct (mul_le_right mq 7036874417766400 eq (-46) Hvq ltac:(reflexivity) Hleq)
        as (Hvr & Hfr & Hshape & Hler); cbv zeta in *.
      split; [assumption|]. split; [assumption|]. split; [|exact Hler].
      destruct Hshape as [-> | (m & e & Hr)]; [cbn; lia|].
      rewrite Hr in Hvr |- *. cbn [valid valid_binary] in Hvr.
      destruct (bounded_inv _ _ Hvr) as (? & _ & _).
      pose proof (ulps_pos m e ltac:(lia)). cbn [ulps cond_Zopp]. lia.
Qed.

(** Rounding a Number between 0 and 100 gives an integer between 0 and 100. *)
Lemma round_range (y : number) :
  valid y = true -> is_finite y = true -> 0 <= ulps y <= ulps n100 ->
  integer_in_range (Math_round y) n100.
Proof.
  intros Hv Hf [H0 H100]. rewrite ulps_n100 in H100.
  destruct (Math_round_ulps y Hv Hf) as (Hv' & Hf' & Hu).
  destruct (nearest_integer_Math_round y Hv Hf) as [Hint _].
  pose proof (pow2_pos 1074 ltac:(lia)) as HU.
  assert (2 ^ 1075 = 2 * 2 ^ 1074) as H1075 by (apply (pow2_succ 1074); lia).
  assert (0 <= (2 * ulps y + 2 ^ 1074) / 2 ^ 1075 <= 100) as Hq.
  { split.
    - apply Z.div_pos; lia.
    - apply Z.lt_succ_r. apply Z.div_lt_upper_bound; lia. }
  split; [exact Hint|]. split.
  - apply le_ulps; try assumption; try reflexivity.
    rewrite Hu. change (ulps n0) with 0. nia.
  - apply le_ulps; try assumption; try reflexivity.
    rewrite Hu, ulps_n100. nia.
Qed.

(** X13.  For a word index within the text, [0 <= w <= t] with [t]
    finite and positive, [wordIndexToPercentage(w, t)] is an integer in
    the closed range [[0, 100]]. *)
Theorem wordIndexToPercentage_in_range (w t : arg) :
  valid (ToNumber w) = true -> valid (ToNumber t) = true ->
  is_finite (ToNumber t) = true -> lt n0 (ToNumber t) = true ->
  le n0 (ToNumber w) = true -> le (ToNumber w) (ToNumber t) = true ->
  integer_in_range (wordIndexToPercentage w t) n100.
Proof.
  intros Hvw Hvt Hft Hpos H0w Hwt. unfold wordIndexToPercentage.
  rewrite (no_words_positive t Hpos).
  destruct (ratio_range _ _ Hvw Hvt Hft H0w Hwt Hpos) as (Hv & Hf & Hr).
  apply round_range; assumption.
Qed.

Lemma wordIndexToPercentage_in_range_witness :
  integer_in_range (wordIndexToPercentage (int 29) (int 200)) n100.
Proof.
  apply (wordIndexToPercentage_in_range (int 29) (int 200)); reflexivity.
Defined.

(** Comparing the other way round gives the opposite. *)
Lemma SFcompare_antisym (x y : number) :
  SFcompare y x = option_map CompOpp (SFcompare x y).
Proof.
  assert (forall p q, Pos.compare_cont Eq q p = CompOpp (Pos.compare_cont Eq p q)) as Hpos
    by (intros p q; rewrite (Pos.compare_cont_antisym p q Eq); reflexivity).
  destruct x as [sx|sx| |sx mx ex], y as [sy|sy| |sy my ey]; cbn [SFcompare option_map];
    try reflexivity;
    repeat match goal with s : bool |- _ => destruct s end;
    try reflexivity; f_equal;
    rewrite (Z.compare_antisym ex ey);
    destruct (ex ?= ey); cbn [CompOpp]; try reflexivity;
    rewrite (Hpos mx my); [|reflexivity].
  destruct (Pos.compare_cont Eq mx my); reflexivity.
Qed.

(** [<=] and [<] exclude each other the other way round. *)
Lemma le_not_lt (x y : number) : le x y = true -> lt y x = false.
Proof.
  unfold le, lt, SFleb, SFltb. rewrite (SFcompare_antisym x y).
  destruct (SFcompare x y) as [[| |]|]; cbn; try discriminate; reflexivity.
Qed.

(** X14.  Percentages beyond the range are clamped: for a finite
    positive [totalWords], every percentage that is at most 0 (negative,
    -Infinity, a zero, [null]) gives word index 0, and every percentage
    that is at least 100 (+Infinity included) gives what 100 gives. *)
Theorem percentage_is_clamped (p t : arg) :
  (le (ToNumber p) n0 = true ->
   is_finite (ToNumber t) = true -> lt n0 (ToNumber t) = true ->
   percentageToWordIndex p t = n0) /\
  (le n100 (ToNumber p) = true ->
   percentageToWordIndex p t = percentageToWordIndex (Num n100) t).
Proof.
  unfold percentageToWordIndex. split.
  - intros Hp Hft Hpos. rewrite (no_words_positive t Hpos).
    destruct (no_words_false t (no_words_positive t Hpos)) as (x & -> & _).
    cbn [ToNumber] in *.
    assert (Math_max n0 (Math_min n100 (ToNumber p)) = n0) as ->
      by (destruct (ToNumber p) as [[|]|[|]| |[|] m e]; try discriminate; reflexivity).
    destruct x as [[|]|[|]| |[|] m e]; try discriminate. reflexivity.
  - intros Hp. destruct (no_words t); [reflexivity|].
    assert (Math_max n0 (Math_min n100 (ToNumber p)) =
            Math_max n0 (Math_min n100 (ToNumber (Num n100)))) as ->; [|reflexivity].
    assert (is_nan (ToNumber p) = false) as Hn
      by (destruct (ToNumber p); try reflexivity; discriminate).
    rewrite (clamp_eq _ Hn), (le_not_lt _ _ Hp). reflexivity.
Qed.

Lemma percentage_is_clamped_witness :
  percentageToWordIndex (int (-10)) (int 1000) = n0 /\
  percentageToWordIndex (Num pos_infinity) (int 1000) =
    percentageToWordIndex (Num n100) (int 1000).
Proof.
  split.
  - apply (proj1 (percentage_is_clamped (int (-10)) (int 1000))); reflexivity.
  - apply (proj2 (percentage_is_clamped (Num pos_infinity) (int 1000))); reflexivity.
Defined.

(** X15.  A percentage or word index that is NaN or missing is not
    caught: for a positive [totalWords] both conversions return NaN. *)
Theorem nan_argument_gives_nan (a t : arg) :
  is_nan (ToNumber a) = true -> lt n0 (ToNumber t) = true ->
  percentageToWordIndex a t = NaN /\ wordIndexToPercentage a t = NaN.
Proof.
  intros Ha Hpos. unfold percentageToWordIndex, wordIndexToPercentage.
  rewrite (no_words_positive t Hpos).
  destruct (ToNumber a); try discriminate.
  destruct (no_words_false t (no_words_positive t Hpos)) as (x & -> & _).
  cbn [ToNumber]. destruct x; split; reflexivity.
Qed.

Lemma nan_argument_gives_nan_witness :
  percentageToWordIndex Undefined (int 1000) = NaN /\
  wordIndexToPercentage Undefined (int 1000) = NaN.
Proof.
  apply (nan_argument_gives_nan Undefined (int 1000)); reflexivity.
Defined.

(** A Number divided by itself is 1, exactly. *)
Lemma div_self (m : positive) (e : Z) :
  bounded prec emax m e = true ->
  div (S754_finite false m e) (S754_finite false m e) = one.
Proof.
  intros Hb.
  destruct (div_core_spec m m e e Hb Hb) as (q & e' & l & Hcore & Hq & Hs & Hloc & _ & He').
  assert (e' = -53) as -> by lia.
  replace (e - e - -53) with 53 in Hloc by lia.
  assert (q = 2 ^ 53 /\ l = loc_Exact) as [-> ->].
  { destruct l as [|c]; cbn [located] in Hloc.
    - split; [|reflexivity].
      apply (Z.mul_reg_l _ _ (Zpos m)); lia.
    - exfalso. destruct Hloc as [[H1 H2] _].
      assert (q < 2 ^ 53) by (apply (Z.mul_lt_mono_pos_r (Zpos m)); lia).
      assert (2 ^ 53 < q + 1) by (apply (Z.mul_lt_mono_pos_l (Zpos m)); lia).
      lia. }
  unfold div, SFdiv. rewrite Hcore. reflexivity.
Qed.

(** X16.  The ends of the text: for every positive [totalWords],
    [wordIndexToPercentage(0, t)] is 0, and for every finite positive
    [totalWords], [wordIndexToPercentage(t, t)] is exactly 100. *)
Theorem wordIndexToPercentage_at_the_ends (t : number) :
  lt n0 t = true ->
  wordIndexToPercentage (Num n0) (Num t) = n0 /\
  (valid t = true -> is_finite t = true ->
   wordIndexToPercentage (Num t) (Num t) = n100).
Proof.
  intros Hpos. unfold wordIndexToPercentage.
  rewrite (no_words_positive (Num t) Hpos). cbn [ToNumber].
  destruct t as [[|]|[|]| |[|] m e]; try discriminate.
  - split; [reflexivity | discriminate].
  - split; [reflexivity|]. intros Hv _. cbn [valid valid_binary] in Hv.
    rewrite (div_self m e Hv). reflexivity.
Qed.

Lemma wordIndexToPercentage_at_the_ends_witness :
  wordIndexToPercentage (Num n0) (int 7) = n0 /\
  wordIndexToPercentage (int 7) (int 7) = n100.
Proof.
  destruct (wordIndexToPercentage_at_the_ends (of_Z 7) eq_refl) as [H0 H100].
  split; [exact H0 | apply H100; reflexivity].
Defined.

(* ===================================================================== *)
(** * Rounding keeps the order *)
(* ===================================================================== *)

(** [binary_round_aux], characterised with the rounding it does: the
    result is [R * 2^E'] where [R] is the floor [M'] of the rational on
    the grid of step [2^E'], or the integer above, as nearest-even
    decides from the location. *)
Lemma binary_round_aux_nearest (s : bool) (N D M E : Z) (l : location) :
  0 <= M -> 0 < D -> located N D M l ->
  E <= fexp prec emax (Zdigits2 M + E) ->
  let E' := fexp prec emax (Zdigits2 M + E) in
  exists M' l',
    0 <= M' /\ located N (D * 2 ^ (E' - E)) M' l' /\
    let R := round_nearest_even M' l' in
    ((R = 0 /\ binary_round_aux prec emax s M E l = S754_zero s) \/
     (exists m e,
         Zpos m * 2 ^ (e - E') = R /\ E' <= e /\
         canonical_mantissa prec emax m e = true /\
         binary_round_aux prec emax s M E l =
           if e <=? 971 then S754_finite s m e else S754_infinity s)).
Proof.
  intros HM HD Hloc HE E'. unfold binary_round_aux.
  destruct (shr_fexp prec emax M E l) as [mrs e'] eqn:H1.
  destruct (shr_fexp_located N D M E l HM HD Hloc HE _ _ H1) as (-> & HM' & Hloc').
  fold E' in Hloc' |- *.
  assert (0 <= E' - E) as Hk by (subst E'; lia).
  pose proof (pow2_pos _ Hk) as Hpk.
  pose proof (located_floor _ _ _ _ _ _ _ HD Hk Hloc Hloc') as Hfl.
  set (M' := shr_m mrs) in *. set (l' := loc_of_shr_record mrs) in *.
  destruct (round_nearest_even_located N (D * 2 ^ (E' - E)) M' l' ltac:(nia) Hloc')
    as (HU & HL & HR).
  set (R := round_nearest_even M' l') in *.
  exists M', l'. split; [exact HM'|]. split; [exact Hloc'|]. cbv zeta. fold R.
  pose proof (Zdigits2_nonneg M) as HdM.
  assert (E' = Z.max (Zdigits2 M + E - 53) (-1074)) as HE' by (subst E'; apply fexp_eq).
  destruct (Z_le_gt_dec (-1074) (Zdigits2 M + E - 53)) as [Hn | Hsub].
  - (* the normal range: the cut mantissa has 53 digits *)
    assert (E' - E = Zdigits2 M - 53) as Hkk by lia.
    assert (0 < M) as HMpos by (destruct M; cbn in *; lia).
    pose proof (Zdigits2_bounds M HMpos) as [Hb1 Hb2].
    assert (2 ^ Zdigits2 M = 2 ^ 53 * 2 ^ (E' - E)) as Hp1
      by (rewrite <- Z.pow_add_r by lia; f_equal; lia).
    assert (2 ^ (Zdigits2 M - 1) = 2 ^ 52 * 2 ^ (E' - E)) as Hp2
      by (rewrite <- Z.pow_add_r by lia; f_equal; lia).
    assert (2 ^ 52 <= M' < 2 ^ 53) as HM'b by nia.
    right.
    destruct (Z.eq_dec R (2 ^ 53)) as [HR53 | HR53].
    + exists 4503599627370496%positive, (E' + 1).
      replace (E' + 1 - E') with 1 by lia.
      split; [rewrite HR53; reflexivity|]. split; [lia|].
      split.
      * unfold canonical_mantissa. rewrite fexp_eq.
        change (Zpos (digits2_pos 4503599627370496)) with 53.
        apply Z.eqb_eq. lia.
      * rewrite HR53. unfold shr_fexp. rewrite fexp_eq.
        change (Zdigits2 (2 ^ 53)) with 54.
        replace (Z.max (54 + E' - 53) (-1074) - E') with 1 by lia.
        cbn. replace (E' + 1 <=? 971) with (E' + 1 <=? 1024 - 53) by reflexivity.
        reflexivity.
    + assert (2 ^ 52 <= R < 2 ^ 53) as HRb by lia.
      pose proof (Zdigits2_eq R 53 HRb ltac:(lia)) as HdR.
      rewrite shr_fexp_fixed by (rewrite fexp_eq, HdR; lia).
      cbn [shr_m].
      destruct R as [|m|m]; try (cbn in HRb; lia).
      exists m, E'. rewrite Z.sub_diag, Z.pow_0_r.
      split; [lia|]. split; [lia|]. split; [|reflexivity].
      unfold canonical_mantissa. apply Z.eqb_eq.
      change (Zpos (digits2_pos m)) with (Zdigits2 (Zpos m)).
      rewrite fexp_eq, HdR. lia.
  - (* the subnormal range: exponent -1074, at most 52 digits before rounding *)
    assert (E' = -1074) as HEs by lia.
    assert (M' < 2 ^ 52) as HM'b.
    { destruct (Z.eq_dec M 0) as [HM0 | HM0]; [nia|].
      pose proof (Zdigits2_bounds M ltac:(lia)) as [_ Hb2].
      assert (Zdigits2 M <= 52 + (E' - E)) by lia.
      pose proof (pow2_le (Zdigits2 M) (52 + (E' - E)) ltac:(lia)) as Hle.
      rewrite Z.pow_add_r in Hle by lia. nia. }
    assert (0 <= R <= 2 ^ 52) as HRb by lia.
    assert (fexp prec emax (Zdigits2 R + E') = E') as Hfix.
    { rewrite fexp_eq.
      pose proof (Zdigits2_le R 53 ltac:(change (2 ^ 53) with (2 * 2 ^ 52); lia) ltac:(lia)).
      lia. }
    rewrite (shr_fexp_fixed _ _ Hfix). cbn [shr_m].
    destruct R as [|m|m]; try lia.
    + left. split; reflexivity.
    + right. exists m, E'. rewrite Z.sub_diag, Z.pow_0_r.
      split; [lia|]. split; [lia|]. split.
      * unfold canonical_mantissa. apply Z.eqb_eq. exact Hfix.
      * reflexivity.
Qed.


(** On one grid, nearest-even rounding is monotone. *)
Lemma round_nearest_even_monotone (N1 N2 D1 D2 M1 M2 : Z) (l1 l2 : location) :
  0 < D1 -> 0 < D2 ->
  located N1 D1 M1 l1 -> located N2 D2 M2 l2 ->
  N1 * D2 <= N2 * D1 ->
  round_nearest_even M1 l1 <= round_nearest_even M2 l2.
Proof.
  intros HD1 HD2 H1 H2 Hle.
  destruct (round_nearest_even_located N1 D1 M1 l1 HD1 H1) as (_ & _ & HR1).
  destruct (round_nearest_even_located N2 D2 M2 l2 HD2 H2) as (_ & _ & HR2).
  assert (M1 * D1 <= N1) as Hl1 by (destruct l1; cbn [located] in H1; nia).
  assert (N2 < (M2 + 1) * D2) as Hu2 by (destruct l2; cbn [located] in H2; nia).
  assert (M1 <= M2) as HM.
  { destruct (Z_le_gt_dec M1 M2) as [|Hgt]; [assumption|exfalso].
    assert (N2 * D1 < (M2 + 1) * D2 * D1) by (apply Z.mul_lt_mono_pos_r; lia).
    assert ((M2 + 1) * (D2 * D1) <= M1 * (D2 * D1)) by (apply Z.mul_le_mono_nonneg_r; nia).
    assert (M1 * D1 * D2 <= N1 * D2) by (apply Z.mul_le_mono_nonneg_r; lia).
    nia. }
  destruct (Z.eq_dec M1 M2) as [-> | Hne]; [|lia].
  (* the same floor: the locations decide *)
  destruct l1 as [|c1]; cbn [round_nearest_even] in *.
  - destruct l2 as [|[]]; cbn [round_nearest_even]; try lia.
    destruct (Z.even M2); lia.
  - destruct H1 as [[H1a H1b] H1c].
    destruct l2 as [|c2]; cbn [round_nearest_even located] in *.
    + (* the second is exactly [M2]: the first cannot lie above it *)
      exfalso. subst N2.
      assert (M2 * D1 * D2 < N1 * D2) by (apply Z.mul_lt_mono_pos_r; lia). nia.
    + destruct H2 as [[H2a H2b] H2c].
      destruct c1, c2; try lia; try (destruct (Z.even M2); lia); exfalso; cmp.
      all: try (assert (2 * N1 * D2 <= 2 * N2 * D1) by nia;
                assert ((2 * M2 + 1) * D1 * D2 < 2 * N1 * D2)
                  by (apply Z.mul_lt_mono_pos_r; lia);
                assert (2 * N2 * D1 <= (2 * M2 + 1) * D2 * D1)
                  by (apply Z.mul_le_mono_nonneg_r; lia);
                nia).
      all: try (assert (2 * N1 * D2 <= 2 * N2 * D1) by nia;
                assert ((2 * M2 + 1) * D1 * D2 <= 2 * N1 * D2)
                  by (apply Z.mul_le_mono_nonneg_r; lia);
                assert (2 * N2 * D1 < (2 * M2 + 1) * D2 * D1)
                  by (apply Z.mul_lt_mono_pos_r; lia);
                nia).
Qed.

Lemma succ_le_pow_digits (M : Z) : 0 <= M -> M + 1 <= 2 ^ Zdigits2 M.
Proof.
  intros HM. destruct (Z.eq_dec M 0) as [-> | Hne]; [cbn; lia|].
  pose proof (Zdigits2_bounds M ltac:(lia)). lia.
Qed.

(** The order of two rounded results is the order of their values. *)
Lemma le_rounds_to (r1 r2 : number) (R1 R2 E1 E2 E0 : Z) :
  rounds_to r1 R1 E1 -> rounds_to r2 R2 E2 ->
  E0 <= E1 -> E0 <= E2 -> E0 <= -1074 ->
  R1 * 2 ^ (E1 - E0) <= R2 * 2 ^ (E2 - E0) ->
  le r1 r2 = true.
Proof.
  intros [[-> ->] | (m1 & e1 & Hm1 & He1 & Hc1 & ->)]
         [[-> ->] | (m2 & e2 & Hm2 & He2 & Hc2 & ->)] H01 H02 H0 HV.
  - reflexivity.
  - destruct (e2 <=? 971); reflexivity.
  - exfalso. subst R1.
    pose proof (pow2_pos (e1 - E1) ltac:(lia)). pose proof (pow2_pos (E1 - E0) ltac:(lia)).
    nia.
  - destruct (canonical_inv _ _ Hc1) as (Hl1 & Hu1 & Hn1).
    destruct (canonical_inv _ _ Hc2) as (Hl2 & Hu2 & Hn2).
    assert (Zpos m1 * 2 ^ (e1 + 1074) <= Zpos m2 * 2 ^ (e2 + 1074)) as HU.
    { subst R1 R2.
      pose proof (pow2_pos (-1074 - E0) ltac:(lia)) as HF.
      assert (2 ^ (e1 - E1) * 2 ^ (E1 - E0) = 2 ^ (e1 + 1074) * 2 ^ (-1074 - E0)) as Hs1
        by (rewrite <- !Z.pow_add_r by lia; f_equal; lia).
      assert (2 ^ (e2 - E2) * 2 ^ (E2 - E0) = 2 ^ (e2 + 1074) * 2 ^ (-1074 - E0)) as Hs2
        by (rewrite <- !Z.pow_add_r by lia; f_equal; lia).
      rewrite <- !Z.mul_assoc, Hs1, Hs2, !Z.mul_assoc in HV.
      apply Z.mul_le_mono_pos_r in HV; assumption. }
    destruct (Z.leb_spec e1 971) as [H1 | H1], (Z.leb_spec e2 971) as [H2 | H2];
      try reflexivity.
    + unfold le, SFleb. cbn [SFcompare].
      rewrite (compare_canonical m1 m2 e1 e2 Hc1 Hc2).
      destruct (Z.compare_spec (Zpos m1 * 2 ^ (e1 + 1074)) (Zpos m2 * 2 ^ (e2 + 1074)));
        try reflexivity; lia.
    + exfalso.
      assert (2 ^ 52 <= Zpos m1) by lia.
      pose proof (pow2_le (e2 + 1074 + 1) (e1 + 1074) ltac:(lia)) as Hp.
      rewrite pow2_succ in Hp by lia.
      pose proof (pow2_pos (e2 + 1074) ltac:(lia)).
      change (2 ^ 53) with (2 * 2 ^ 52) in Hu2. nia.
Qed.

(** Rounding is monotone: of two rationals [N1 / D * 2^E1 <= N2 / D * 2^E2],
    the first does not round above the second. *)
Lemma round_monotone (N1 N2 D M1 M2 E1 E2 E0 : Z) (l1 l2 : location) :
  0 <= M1 -> 0 <= M2 -> 0 < D ->
  located N1 D M1 l1 -> located N2 D M2 l2 ->
  E1 <= fexp prec emax (Zdigits2 M1 + E1) ->
  E2 <= fexp prec emax (Zdigits2 M2 + E2) ->
  E0 <= E1 -> E0 <= E2 -> E0 <= -1074 ->
  N1 * 2 ^ (E1 - E0) <= N2 * 2 ^ (E2 - E0) ->
  le (binary_round_aux prec emax false M1 E1 l1)
     (binary_round_aux prec emax false M2 E2 l2) = true.
Proof.
  intros HM1 HM2 HD Hloc1 Hloc2 HE1 HE2 H01 H02 H0 Hle.
  destruct (binary_round_aux_nearest false N1 D M1 E1 l1 HM1 HD Hloc1 HE1)
    as (M1' & l1' & HM1' & Hloc1' & Hshape1).
  destruct (binary_round_aux_nearest false N2 D M2 E2 l2 HM2 HD Hloc2 HE2)
    as (M2' & l2' & HM2' & Hloc2' & Hshape2).
  cbv zeta in *.
  set (E1' := fexp prec emax (Zdigits2 M1 + E1)) in *.
  set (E2' := fexp prec emax (Zdigits2 M2 + E2)) in *.
  assert (E1' = Z.max (Zdigits2 M1 + E1 - 53) (-1074)) as HE1' by (subst E1'; apply fexp_eq).
  assert (E2' = Z.max (Zdigits2 M2 + E2 - 53) (-1074)) as HE2' by (subst E2'; apply fexp_eq).
  clearbody E1' E2'.
  set (R1 := round_nearest_even M1' l1') in *.
  set (R2 := round_nearest_even M2' l2') in *.
  pose proof (pow2_pos (E1' - E1) ltac:(lia)) as Hp1.
  pose proof (pow2_pos (E2' - E2) ltac:(lia)) as Hp2.
  pose proof (pow2_pos (E1 - E0) ltac:(lia)) as Hq1.
  pose proof (pow2_pos (E2 - E0) ltac:(lia)) as Hq2.
  destruct (round_nearest_even_located N1 (D * 2 ^ (E1' - E1)) M1' l1' ltac:(nia) Hloc1')
    as (HU1 & HL1 & HR1).
  destruct (round_nearest_even_located N2 (D * 2 ^ (E2' - E2)) M2' l2' ltac:(nia) Hloc2')
    as (HU2 & HL2 & HR2).
  fold R1 in HU1, HL1, HR1. fold R2 in HU2, HL2, HR2.
  assert (M1 * D <= N1 < (M1 + 1) * D) as [Hn1 Hn1']
    by (destruct l1; cbn [located] in Hloc1; nia).
  assert (M2 * D <= N2 < (M2 + 1) * D) as [Hn2 Hn2']
    by (destruct l2; cbn [located] in Hloc2; nia).
  pose proof (succ_le_pow_digits M1 HM1) as Hs1.
  pose proof (succ_le_pow_digits M2 HM2) as Hs2.
  pose proof (Zdigits2_nonneg M1) as Hd1.
  pose proof (Zdigits2_nonneg M2) as Hd2.
  apply (le_rounds_to _ _ R1 R2 E1' E2' E0); try assumption; try lia.
  destruct (Z.lt_trichotomy E1' E2') as [Hlt | [Heq | Hgt]].
  - (* the first lies in a lower binade: a power of two separates them *)
    assert (R1 <= 2 ^ (E2' + 52 - E1')) as HR1le.
    { apply HU1.
      assert (2 ^ (E2' + 52 - E1') * (D * 2 ^ (E1' - E1)) = 2 ^ (E2' + 52 - E1) * D) as ->.
      { replace (E2' + 52 - E1) with (E2' + 52 - E1' + (E1' - E1)) by lia.
        rewrite Z.pow_add_r by lia. ring. }
      pose proof (pow2_le (Zdigits2 M1) (E2' + 52 - E1) ltac:(lia)).
      assert ((M1 + 1) * D <= 2 ^ (E2' + 52 - E1) * D)
        by (apply Z.mul_le_mono_nonneg_r; lia).
      lia. }
    assert (2 ^ 52 <= R2) as HR2ge.
    { apply HL2.
      assert (0 < M2) by (destruct M2; cbn in *; lia).
      pose proof (Zdigits2_bounds M2 ltac:(lia)) as [Hb _].
      assert (2 ^ 52 * (D * 2 ^ (E2' - E2)) = 2 ^ (Zdigits2 M2 - 1) * D) as ->.
      { replace (Zdigits2 M2 - 1) with (52 + (E2' - E2)) by lia.
        rewrite Z.pow_add_r by lia. ring. }
      assert (2 ^ (Zdigits2 M2 - 1) * D <= M2 * D)
        by (apply Z.mul_le_mono_nonneg_r; lia).
      lia. }
    assert (2 ^ (E2' + 52 - E1') * 2 ^ (E1' - E0) = 2 ^ 52 * 2 ^ (E2' - E0)) as Hsplit
      by (rewrite <- !Z.pow_add_r by lia; f_equal; lia).
    pose proof (pow2_pos (E1' - E0) ltac:(lia)).
    pose proof (pow2_pos (E2' - E0) ltac:(lia)).
    assert (R1 * 2 ^ (E1' - E0) <= 2 ^ (E2' + 52 - E1') * 2 ^ (E1' - E0))
      by (apply Z.mul_le_mono_nonneg_r; lia).
    assert (2 ^ 52 * 2 ^ (E2' - E0) <= R2 * 2 ^ (E2' - E0))
      by (apply Z.mul_le_mono_nonneg_r; lia).
    lia.
  - (* the same grid *)
    clear HE2'. subst E2'.
    assert (R1 <= R2) as HR.
    { apply (round_nearest_even_monotone N1 N2 (D * 2 ^ (E1' - E1)) (D * 2 ^ (E1' - E2))
               M1' M2' l1' l2'); try assumption; try nia.
      assert (2 ^ (E1 - E0) * 2 ^ (E1' - E1) = 2 ^ (E2 - E0) * 2 ^ (E1' - E2)) as Hg
        by (rewrite <- !Z.pow_add_r by lia; f_equal; lia).
      assert (N1 * 2 ^ (E1 - E0) * (2 ^ (E1' - E1) * 2 ^ (E1' - E2)) <=
              N2 * 2 ^ (E2 - E0) * (2 ^ (E1' - E1) * 2 ^ (E1' - E2))) as Hmul
        by (apply Z.mul_le_mono_nonneg_r; nia).
      replace (N1 * 2 ^ (E1 - E0) * (2 ^ (E1' - E1) * 2 ^ (E1' - E2)))
        with (N1 * 2 ^ (E1' - E2) * (2 ^ (E1 - E0) * 2 ^ (E1' - E1))) in Hmul by ring.
      replace (N2 * 2 ^ (E2 - E0) * (2 ^ (E1' - E1) * 2 ^ (E1' - E2)))
        with (N2 * 2 ^ (E1' - E1) * (2 ^ (E2 - E0) * 2 ^ (E1' - E2))) in Hmul by ring.
      rewrite <- Hg in Hmul.
      apply Z.mul_le_mono_pos_r in Hmul; [|nia].
      replace (N1 * (D * 2 ^ (E1' - E2))) with (N1 * 2 ^ (E1' - E2) * D) by ring.
      replace (N2 * (D * 2 ^ (E1' - E1))) with (N2 * 2 ^ (E1' - E1) * D) by ring.
      apply Z.mul_le_mono_nonneg_r; lia. }
    apply Z.mul_le_mono_nonneg_r; [|exact HR].
    pose proof (pow2_pos (E1' - E0) ltac:(lia)). lia.
  - (* the first cannot lie in a higher binade *)
    exfalso.
    assert (0 < M1) by (destruct M1; cbn in *; lia).
    pose proof (Zdigits2_bounds M1 ltac:(lia)) as [Hb _].
    pose proof (pow2_le (Zdigits2 M2 + (E2 - E0)) (Zdigits2 M1 - 1 + (E1 - E0)) ltac:(lia)) as Hp.
    rewrite (Z.pow_add_r 2 (Zdigits2 M2)), (Z.pow_add_r 2 (Zdigits2 M1 - 1)) in Hp by lia.
    assert (2 ^ (Zdigits2 M1 - 1) * D <= N1) by nia.
    assert (N2 < 2 ^ Zdigits2 M2 * D) by nia.
    assert (2 ^ (Zdigits2 M1 - 1) * D * 2 ^ (E1 - E0) <= N1 * 2 ^ (E1 - E0))
      by (apply Z.mul_le_mono_nonneg_r; lia).
    assert (N2 * 2 ^ (E2 - E0) < 2 ^ Zdigits2 M2 * D * 2 ^ (E2 - E0))
      by (apply Z.mul_lt_mono_pos_r; lia).
    assert (2 ^ Zdigits2 M2 * 2 ^ (E2 - E0) * D <= 2 ^ (Zdigits2 M1 - 1) * 2 ^ (E1 - E0) * D)
      by (apply Z.mul_le_mono_nonneg_r; lia).
    lia.
Qed.

Lemma mul_exponent_ok (mx my : positive) (ex ey : Z) :
  bounded prec emax mx ex = true -> bounded prec emax my ey = true ->
  ex + ey <= fexp prec emax (Zdigits2 (Zpos (mx * my)) + (ex + ey)).
Proof.
  intros Hx Hy.
  destruct (bounded_inv _ _ Hx) as (Hex & Hmx & Hnx).
  destruct (bounded_inv _ _ Hy) as (Hey & Hmy & Hny).
  rewrite fexp_eq.
  destruct Hnx as [-> | Hnx], Hny as [-> | Hny]; try lia.
  all: assert (53 <= Zdigits2 (Zpos (mx * my)))
    by (apply Zdigits2_ge; [|lia]; change (53 - 1) with 52;
        rewrite Pos2Z.inj_mul; nia); lia.
Qed.

(** Multiplication by a positive Number is monotone. *)
Lemma mul_monotone (mq1 mq2 mt : positive) (eq1 eq2 et : Z) :
  bounded prec emax mq1 eq1 = true -> bounded prec emax mq2 eq2 = true ->
  bounded prec emax mt et = true ->
  Zpos mq1 * 2 ^ (eq1 + 1074) <= Zpos mq2 * 2 ^ (eq2 + 1074) ->
  le (mul (S754_finite false mq1 eq1) (S754_finite false mt et))
     (mul (S754_finite false mq2 eq2) (S754_finite false mt et)) = true.
Proof.
  intros H1 H2 Ht Hle.
  destruct (bounded_inv _ _ H1) as (He1 & _ & _).
  destruct (bounded_inv _ _ H2) as (He2 & _ & _).
  destruct (bounded_inv _ _ Ht) as (Het & _ & _).
  unfold mul, SFmul. cbn [xorb].
  set (E0 := Z.min (et - 1074) (-1074)).
  apply round_monotone with (N1 := Zpos (mq1 * mt)) (N2 := Zpos (mq2 * mt))
                            (D := 1) (E0 := E0); try lia.
  - cbn [located]. lia.
  - cbn [located]. lia.
  - apply mul_exponent_ok; assumption.
  - apply mul_exponent_ok; assumption.
  - assert (forall e, -1074 <= e ->
              2 ^ (e + et - E0) = 2 ^ (e + 1074) * 2 ^ (et - 1074 - E0)) as Hs
      by (intros e He; rewrite <- Z.pow_add_r by lia; f_equal; lia).
    rewrite (Hs eq1), (Hs eq2), !Pos2Z.inj_mul by lia.
    pose proof (pow2_pos (et - 1074 - E0) ltac:(lia)).
    assert (Zpos mq1 * 2 ^ (eq1 + 1074) * (Zpos mt * 2 ^ (et - 1074 - E0)) <=
            Zpos mq2 * 2 ^ (eq2 + 1074) * (Zpos mt * 2 ^ (et - 1074 - E0)))
      by (apply Z.mul_le_mono_nonneg_r; nia).
    lia.
Qed.

(** Division by a positive Number is monotone. *)
Lemma div_monotone (mc1 mc2 mt : positive) (ec1 ec2 et : Z) :
  bounded prec emax mc1 ec1 = true -> bounded prec emax mc2 ec2 = true ->
  bounded prec emax mt et = true ->
  Zpos mc1 * 2 ^ (ec1 + 1074) <= Zpos mc2 * 2 ^ (ec2 + 1074) ->
  le (div (S754_finite false mc1 ec1) (S754_finite false mt et))
     (div (S754_finite false mc2 ec2) (S754_finite false mt et)) = true.
Proof.
  intros H1 H2 Ht Hle.
  destruct (bounded_inv _ _ H1) as (He1 & _ & _).
  destruct (bounded_inv _ _ H2) as (He2 & _ & _).
  destruct (bounded_inv _ _ Ht) as (Het & _ & _).
  destruct (div_core_spec mc1 mt ec1 et H1 Ht)
    as (q1 & e1' & l1 & Hcore1 & Hq1 & Hs1 & Hloc1 & Hdig1 & Hdef1).
  destruct (div_core_spec mc2 mt ec2 et H2 Ht)
    as (q2 & e2' & l2 & Hcore2 & Hq2 & Hs2 & Hloc2 & Hdig2 & Hdef2).
  unfold div, SFdiv. cbn [xorb]. rewrite Hcore1, Hcore2.
  set (E0 := Z.min (-1074 - et) (-1074)).
  assert (E0 <= e1' /\ E0 <= e2') as [H01 H02] by lia.
  apply round_monotone with (N1 := Zpos mc1 * 2 ^ (ec1 - et - e1'))
                            (N2 := Zpos mc2 * 2 ^ (ec2 - et - e2'))
                            (D := Zpos mt) (E0 := E0); try assumption; try lia.
  assert (forall ec e', -1074 <= ec -> 0 <= ec - et - e' -> E0 <= e' ->
            2 ^ (ec - et - e') * 2 ^ (e' - E0) =
            2 ^ (ec + 1074) * 2 ^ (-1074 - et - E0)) as Hs
    by (intros ec e' ? ? ?; rewrite <- !Z.pow_add_r by lia; f_equal; lia).
  rewrite <- !Z.mul_assoc, (Hs ec1 e1'), (Hs ec2 e2'), !Z.mul_assoc by lia.
  apply Z.mul_le_mono_nonneg_r; [|exact Hle].
  pose proof (pow2_pos (-1074 - et - E0) ltac:(lia)). lia.
Qed.

(** [(a / b) * c] for [0 < a <= b]: a Number that is not negative, with
    a quotient of at most one. *)
Lemma scaled_finite (ma mb mc : positive) (ea eb ec : Z) :
  bounded prec emax ma ea = true -> bounded prec emax mb eb = true ->
  bounded prec emax mc ec = true ->
  Zpos ma * 2 ^ (ea + 1074) <= Zpos mb * 2 ^ (eb + 1074) ->
  let q := div (S754_finite false ma ea) (S754_finite false mb eb) in
  let r := mul q (S754_finite false mc ec) in
  valid r = true /\ is_finite r = true /\ 0 <= ulps r /\
  (q = pos_zero \/
   exists mq eq, q = S754_finite false mq eq /\ bounded prec emax mq eq = true).
Proof.
  intros Ha Hb Hc Hle. cbv zeta.
  destruct (div_le_one ma mb ea eb Ha Hb Hle)
    as (Hvq & Hfq & [Hq | (mq & eq & Hq)] & Hleq); cbv zeta in *; rewrite Hq in *.
  - repeat split; try reflexivity. left; reflexivity.
  - cbn [valid valid_binary] in Hvq. cbn [ulps cond_Zopp] in Hleq.
    destruct (mul_le_right mq mc eq ec Hvq Hc Hleq)
      as (Hvr & Hfr & Hshape & _); cbv zeta in *.
    split; [assumption|]. split; [assumption|]. split.
    + destruct Hshape as [-> | (m & e & Hr)]; [cbn; lia|].
      rewrite Hr in Hvr |- *. cbn [valid valid_binary] in Hvr.
      destruct (bounded_inv _ _ Hvr) as (? & _ & _).
      pose proof (ulps_pos m e ltac:(lia)). cbn [ulps cond_Zopp]. lia.
    + right. exists mq, eq. split; [reflexivity | assumption].
Qed.

(** [(a / b) * c] grows with [a], for [0 <= a <= b] and positive [b], [c]. *)
Lemma scaled_monotone (a1 a2 : number) (mb mc : positive) (eb ec : Z) :
  valid a1 = true -> valid a2 = true ->
  bounded prec emax mb eb = true -> bounded prec emax mc ec = true ->
  le n0 a1 = true -> le a1 a2 = true -> le a2 (S754_finite false mb eb) = true ->
  let r1 := mul (div a1 (S754_finite false mb eb)) (S754_finite false mc ec) in
  let r2 := mul (div a2 (S754_finite false mb eb)) (S754_finite false mc ec) in
  valid r1 = true /\ is_finite r1 = true /\
  valid r2 = true /\ is_finite r2 = true /\ 0 <= ulps r1 <= ulps r2.
Proof.
  intros Hv1 Hv2 Hb Hc H01 H12 H2b. cbv zeta.
  destruct a2 as [s2|[|]| |[|] m2 e2]; try discriminate;
    destruct a1 as [s1|[|]| |[|] m1 e1]; try discriminate.
  - destruct s1, s2; repeat split; cbn; lia.
  - destruct s1.
    all: cbn [valid valid_binary] in Hv2.
    all: apply (le_ulps (S754_finite false m2 e2) (S754_finite false mb eb)) in H2b;
        try assumption; try reflexivity.
    all: cbn [ulps cond_Zopp] in H2b.
    all: destruct (scaled_finite m2 mb mc e2 eb ec Hv2 Hb Hc H2b)
        as (Hvr & Hfr & H0r & _); cbv zeta in *.
    all: repeat split; try assumption; try reflexivity.
  - cbn [valid valid_binary] in Hv1, Hv2.
    apply (le_ulps (S754_finite false m2 e2) (S754_finite false mb eb)) in H2b;
      try assumption; try reflexivity.
    apply (le_ulps (S754_finite false m1 e1) (S754_finite false m2 e2)) in H12;
      try assumption; try reflexivity.
    cbn [ulps cond_Zopp] in H2b, H12.
    pose proof (div_monotone m1 m2 mb e1 e2 eb Hv1 Hv2 Hb H12) as Hq.
    destruct (scaled_finite m1 mb mc e1 eb ec Hv1 Hb Hc ltac:(lia))
      as (Hvr1 & Hfr1 & H0r1 & Hs1).
    destruct (scaled_finite m2 mb mc e2 eb ec Hv2 Hb Hc H2b)
      as (Hvr2 & Hfr2 & H0r2 & Hs2).
    cbv zeta in *.
    split; [assumption|]. split; [assumption|]. split; [assumption|].
    split; [assumption|]. split; [assumption|].
    destruct Hs1 as [Hq1 | (mq1 & eq1 & Hq1 & Hb1)].
    + rewrite Hq1. assert (mul pos_zero (S754_finite false mc ec) = pos_zero)
        as -> by reflexivity. exact H0r2.
    + destruct Hs2 as [Hq2 | (mq2 & eq2 & Hq2 & Hb2)]; rewrite Hq1, Hq2 in *.
      * apply (le_ulps (S754_finite false mq1 eq1) pos_zero) in Hq;
          try assumption; try reflexivity.
        destruct (bounded_inv _ _ Hb1) as (? & _ & _).
        pose proof (ulps_pos mq1 eq1 ltac:(lia)).
        cbn [ulps cond_Zopp pos_zero] in Hq. lia.
      * apply (le_ulps (S754_finite false mq1 eq1) (S754_finite false mq2 eq2)) in Hq;
          try assumption; try reflexivity.
        cbn [ulps cond_Zopp] in Hq.
        pose proof (mul_monotone mq1 mq2 mc eq1 eq2 ec Hb1 Hb2 Hc Hq) as Hr.
        apply le_ulps in Hr; assumption.
Qed.

(** [Math.floor] and [Math.round] keep the order of finite Numbers. *)
Lemma Math_floor_monotone (x y : number) :
  valid x = true -> is_finite x = true ->
  valid y = true -> is_finite y = true ->
  ulps x <= ulps y -> le (Math_floor x) (Math_floor y) = true.
Proof.
  intros Hvx Hfx Hvy Hfy Hle.
  destruct (Math_floor_ulps x Hvx Hfx) as (Hv1 & Hf1 & Hu1).
  destruct (Math_floor_ulps y Hvy Hfy) as (Hv2 & Hf2 & Hu2).
  apply le_ulps; try assumption. rewrite Hu1, Hu2.
  pose proof (pow2_pos 1074 ltac:(lia)) as HU.
  apply Z.mul_le_mono_nonneg_r; [lia|].
  apply Z.div_le_mono; lia.
Qed.

Lemma Math_round_monotone (x y : number) :
  valid x = true -> is_finite x = true ->
  valid y = true -> is_finite y = true ->
  ulps x <= ulps y -> le (Math_round x) (Math_round y) = true.
Proof.
  intros Hvx Hfx Hvy Hfy Hle.
  destruct (Math_round_ulps x Hvx Hfx) as (Hv1 & Hf1 & Hu1).
  destruct (Math_round_ulps y Hvy Hfy) as (Hv2 & Hf2 & Hu2).
  apply le_ulps; try assumption. rewrite Hu1, Hu2.
  pose proof (pow2_pos 1074 ltac:(lia)) as HU.
  pose proof (pow2_pos 1075 ltac:(lia)) as HU'.
  apply Z.mul_le_mono_nonneg_r; [lia|].
  apply Z.div_le_mono; lia.
Qed.

(** Clamping to [0, 100] keeps the order, the infinities included. *)
Lemma clamp_ulps (p : number) :
  valid p = true -> is_finite p = true ->
  ulps (Math_max n0 (Math_min n100 p)) = Z.max 0 (Z.min (ulps p) (ulps n100)).
Proof.
  intros Hv Hf.
  assert (is_nan p = false) as Hn by (destruct p; try discriminate; reflexivity).
  rewrite (clamp_eq p Hn). cbv zeta. rewrite ulps_n100.
  pose proof (pow2_pos 1074 ltac:(lia)) as HU.
  pose proof (lt_ulps p n100 Hv ltac:(reflexivity) Hf ltac:(reflexivity)) as H100.
  pose proof (lt_ulps n0 p ltac:(reflexivity) Hv ltac:(reflexivity) Hf) as H0.
  rewrite ulps_n100 in H100. change (ulps n0) with 0 in H0.
  destruct (lt p n100) eqn:Hlt.
  - assert (ulps p < 100 * 2 ^ 1074) by (apply H100; reflexivity).
    destruct (lt n0 p) eqn:Hpos.
    + assert (0 < ulps p) by (apply H0; reflexivity). lia.
    + assert (~ 0 < ulps p) by (intros G; apply H0 in G; discriminate).
      change (ulps n0) with 0. lia.
  - assert (~ ulps p < 100 * 2 ^ 1074) by (intros G; apply H100 in G; discriminate).
    change (lt n0 n100) with true. cbv iota. rewrite ulps_n100. lia.
Qed.

Lemma clamp_monotone (p1 p2 : number) :
  valid p1 = true -> valid p2 = true ->
  is_nan p1 = false -> is_nan p2 = false -> le p1 p2 = true ->
  le (Math_max n0 (Math_min n100 p1)) (Math_max n0 (Math_min n100 p2)) = true.
Proof.
  intros Hv1 Hv2 Hn1 Hn2 Hle.
  pose proof (pow2_pos 1074 ltac:(lia)) as HU.
  assert (forall p, valid p = true -> is_nan p = false ->
            let c := Math_max n0 (Math_min n100 p) in
            valid c = true /\ is_finite c = true) as Hc.
  { intros p Hv Hn. destruct (clamp_cases p Hv Hn) as [-> | (m & e & -> & Hb & _)];
      split; try reflexivity. exact Hb. }
  destruct (Hc p1 Hv1 Hn1) as [Hvc1 Hfc1]. destruct (Hc p2 Hv2 Hn2) as [Hvc2 Hfc2].
  cbv zeta in *. apply le_ulps; try assumption.
  destruct (is_finite p1) eqn:F1, (is_finite p2) eqn:F2.
  - rewrite !clamp_ulps by assumption.
    apply le_ulps in Hle; try assumption. lia.
  - destruct p2 as [|[|]| |]; try discriminate.
    + destruct p1 as [|[|]| |[|]]; discriminate.
    + rewrite clamp_ulps by assumption.
      assert (Math_max n0 (Math_min n100 (S754_infinity false)) = n100)
        as -> by reflexivity.
      rewrite ulps_n100. lia.
  - destruct p1 as [|[|]| |]; try discriminate.
    + rewrite (clamp_ulps p2) by assumption.
      assert (Math_max n0 (Math_min n100 (S754_infinity true)) = n0)
        as -> by reflexivity.
      rewrite ulps_n100. change (ulps n0) with 0. lia.
    + destruct p2 as [|[|]| |[|]]; discriminate.
  - destruct p1 as [|[|]| |], p2 as [|[|]| |]; try discriminate; cbn; lia.
Qed.

(** ** The conversions keep the order of their first argument *)

(** X17.  [percentageToWordIndex] is monotone in the percentage: for
    every [totalWords] other than +Infinity, [p1 <= p2] gives
    [percentageToWordIndex(p1, t) <= percentageToWordIndex(p2, t)], the
    two roundings of the division and the multiplication included.  The
    percentages may be any Numbers, infinite ones too. *)
Theorem percentageToWordIndex_monotone (p1 p2 t : arg) :
  valid (ToNumber p1) = true -> valid (ToNumber p2) = true ->
  valid (ToNumber t) = true -> ToNumber t <> pos_infinity ->
  le (ToNumber p1) (ToNumber p2) = true ->
  le (percentageToWordIndex p1 t) (percentageToWordIndex p2 t) = true.
Proof.
  intros Hv1 Hv2 Hvt Hinf Hle. unfold percentageToWordIndex.
  destruct (no_words t) eqn:Hnw; [reflexivity|].
  destruct (no_words_false t Hnw) as (x & -> & Hpos). cbn [ToNumber] in *.
  destruct x as [[|]|[|]| |[|] mt et]; try discriminate; [contradiction|].
  cbn [valid valid_binary] in Hvt.
  assert (is_nan (ToNumber p1) = false /\ is_nan (ToNumber p2) = false) as [Hn1 Hn2].
  { destruct (ToNumber p1) as [| | |], (ToNumber p2) as [| | |];
      try discriminate; split; reflexivity. }
  pose proof (clamp_monotone _ _ Hv1 Hv2 Hn1 Hn2 Hle) as Hc.
  pose proof (clamp_cases _ Hv1 Hn1) as Hc1.
  pose proof (clamp_cases _ Hv2 Hn2) as Hc2. cbv zeta in Hc1, Hc2.
  set (c1 := Math_max n0 (Math_min n100 (ToNumber p1))) in *.
  set (c2 := Math_max n0 (Math_min n100 (ToNumber p2))) in *.
  assert (valid c1 = true /\ le n0 c1 = true) as [Hvc1 H0c1].
  { destruct Hc1 as [-> | (m & e & -> & Hb & _)]; split; try reflexivity. exact Hb. }
  assert (valid c2 = true /\ le c2 n100 = true) as [Hvc2 Hc100].
  { destruct Hc2 as [-> | (m & e & -> & Hb & Hu)]; split; try reflexivity;
      try exact Hb.
    apply le_ulps; try reflexivity; assumption. }
  change n100 with (S754_finite false 7036874417766400 (-46)) in Hc100 |- *.
  destruct (scaled_monotone c1 c2 7036874417766400 mt (-46) et
              Hvc1 Hvc2 ltac:(reflexivity) Hvt H0c1 Hc Hc100)
    as (Hvr1 & Hfr1 & Hvr2 & Hfr2 & _ & Hr).
  apply Math_floor_monotone; assumption.
Qed.

Lemma percentageToWordIndex_monotone_witness :
  le (percentageToWordIndex (int 25) (int 200))
     (percentageToWordIndex (int 50) (int 200)) = true.
Proof.
  apply (percentageToWordIndex_monotone (int 25) (int 50) (int 200));
    try reflexivity.
  discriminate.
Defined.

(** X18.  [wordIndexToPercentage] is monotone in the word index within
    the text: for finite [t] and [0 <= w1 <= w2 <= t],
    [wordIndexToPercentage(w1, t) <= wordIndexToPercentage(w2, t)]. *)
Theorem wordIndexToPercentage_monotone (w1 w2 t : arg) :
  valid (ToNumber w1) = true -> valid (ToNumber w2) = true ->
  valid (ToNumber t) = true -> is_finite (ToNumber t) = true ->
  le n0 (ToNumber w1) = true -> le (ToNumber w1) (ToNumber w2) = true ->
  le (ToNumber w2) (ToNumber t) = true ->
  le (wordIndexToPercentage w1 t) (wordIndexToPercentage w2 t) = true.
Proof.
  intros Hv1 Hv2 Hvt Hft H01 H12 H2t. unfold wordIndexToPercentage.
  destruct (no_words t) eqn:Hnw; [reflexivity|].
  destruct (no_words_false t Hnw) as (x & -> & Hpos). cbn [ToNumber] in *.
  destruct x as [[|]|[|]| |[|] mt et]; try discriminate.
  cbn [valid valid_binary] in Hvt.
  change n100 with (S754_finite false 7036874417766400 (-46)).
  destruct (scaled_monotone (ToNumber w1) (ToNumber w2) mt 7036874417766400 et (-46)
              Hv1 Hv2 Hvt ltac:(reflexivity) H01 H12 H2t)
    as (Hvr1 & Hfr1 & Hvr2 & Hfr2 & _ & Hr).
  apply Math_round_monotone; assumption.
Qed.

Lemma wordIndexToPercentage_monotone_witness :
  le (wordIndexToPercentage (int 29) (int 200))
     (wordIndexToPercentage (int 30) (int 200)) = true.
Proof.
  apply (wordIndexToPercentage_monotone (int 29) (int 30) (int 200)); reflexivity.
Defined.
